(** * UI automation recon toolkit: scan report and page model

    A shallow embedding of the decision logic of the toolkit:

    - [src/model/buildPageModel.ts]: the pure transform from a recon
      report to the framework-agnostic page model ([domainFromUrl],
      [normalizeWhitespace], [safeName], [kindFromRecon], [buildName],
      [buildLocators], [stableElementId], [buildPageModel]);
    - [src/recon/scanPage.ts] in its documented revision (the one that
      records [typeAttr] and [value]): [normalizeType], the helpers that
      run inside the page ([isVisible], [isDisabled], [isCandidate],
      [getText], [cssEscape], [bestCss], [xpathFor],
      [findAssociatedLabelText], [accessibleName]), the two filters, the
      raw-element record built for each remaining node, and the
      conversion and count aggregation done by [scanUrl];
    - the earlier revision of [scanPage.ts] where it differs
      ([Earlier.normalizeType], [Earlier.accessibleName]).

    The browser is outside the model: [scanUrl] takes the rendered page
    as a [Dom.Document], the clock reading as a string, and the run
    time's [Number] and [URL] as functions.

    Strings.  A JavaScript string is a sequence of UTF-16 code units.
    The model uses Rocq's [string], whose characters are the code units
    below 256 (Basic Latin and Latin-1 Supplement).  On that range the
    whitespace class [\s] is {9, 10, 11, 12, 13, 32, 160} and
    [toLowerCase] shifts A-Z and the Latin-1 capitals by 32.

    Optional values.  A property typed [string | undefined] is an
    [option string]; JavaScript truthiness of such a value (present and
    not the empty string) is [truthy], and the operator [a || b] is
    [a ||| b]. *)

From Stdlib Require Import String Ascii NArith QArith Lia.
From stdpp Require Import base option strings list gmap pretty.

Open Scope string_scope.

(** ** JavaScript string primitives *)

Module JS.

(** [Boolean(s)] for a string. *)
Definition nonEmpty (s : string) : bool :=
  match s with "" => false | String _ _ => true end.

(** [Boolean(v)] for [v : string | undefined]. *)
Definition truthy (v : option string) : bool :=
  match v with Some s => nonEmpty s | None => false end.

(** [a || b] on [string | undefined]. *)
Definition or (a b : option string) : option string :=
  if truthy a then a else b.

(** [a || undefined]. *)
Definition orUndefined (a : option string) : option string := or a None.

(** The class [\s], on code units below 256. *)
Definition isWhiteSpace (c : ascii) : bool :=
  match c with
  | "009" | "010" | "011" | "012" | "013" | " " | "160" => true
  | _ => false
  end%char.

(** The class [[^a-z0-9]]. *)
Definition isLowerAlnum (c : ascii) : bool :=
  let n := N_of_ascii c in
  ((97 <=? n) && (n <=? 122) || (48 <=? n) && (n <=? 57))%N.

Definition notLowerAlnum (c : ascii) : bool := negb (isLowerAlnum c).

Definition isHyphen (c : ascii) : bool :=
  match c with "-"%char => true | _ => false end.

(** One code unit of [toLowerCase]. *)
Definition toLowerChar (c : ascii) : ascii :=
  let n := N_of_ascii c in
  if ((65 <=? n) && (n <=? 90)
      || (192 <=? n) && (n <=? 222) && negb (n =? 215))%N
  then ascii_of_N (n + 32) else c.

Fixpoint mapChars (f : ascii -> ascii) (s : string) : string :=
  match s with
  | "" => ""
  | String c s' => String (f c) (mapChars f s')
  end.

(** [s.toLowerCase()]. *)
Definition toLowerCase (s : string) : string := mapChars toLowerChar s.

(** [s.slice(0, n)]. *)
Definition slice0 (n : nat) (s : string) : string := substring 0 n s.

Fixpoint dropWhile (cls : ascii -> bool) (s : string) : string :=
  match s with
  | "" => ""
  | String c s' => if cls c then dropWhile cls s' else s
  end.

Fixpoint dropWhileEnd (cls : ascii -> bool) (s : string) : string :=
  match s with
  | "" => ""
  | String c s' =>
      let r := dropWhileEnd cls s' in
      if cls c && negb (nonEmpty r) then "" else String c r
  end.

(** Removing [/^C+|C+$/g] for a character class [C]: the leading
    run and the trailing run of [C] are removed. *)
Definition stripEnds (cls : ascii -> bool) (s : string) : string :=
  dropWhileEnd cls (dropWhile cls s).

(** [s.trim()]: [stripEnds] for white space and line terminators,
    which together are the class [\s]. *)
Definition trim (s : string) : string := stripEnds isWhiteSpace s.

(** [s.replace(/C+/g, rep)]: every maximal run of [C] becomes one
    [rep].  [inRun] tells that the previous character was in [C]. *)
Fixpoint replaceRunsFrom (cls : ascii -> bool) (rep : string)
    (inRun : bool) (s : string) : string :=
  match s with
  | "" => ""
  | String c s' =>
      if cls c
      then (if inRun then replaceRunsFrom cls rep true s'
            else rep +:+ replaceRunsFrom cls rep true s')
      else String c (replaceRunsFrom cls rep false s')
  end.

Definition replaceRuns (cls : ascii -> bool) (rep s : string) : string :=
  replaceRunsFrom cls rep false s.

(** Removing one anchored, literal prefix, as [/^www\./] does. *)
Definition stripPrefix (p s : string) : string :=
  if String.prefix p s
  then substring (String.length p) (String.length s - String.length p) s
  else s.

(** The characters that [cssEscape] prefixes with a backslash:
    double quote, backslash, dot, hash, colon and square brackets. *)
Definition needsCssEscape (c : ascii) : bool :=
  match c with
  | "034" | "\" | "." | "#" | ":" | "[" | "]" => true
  | _ => false
  end%char.

Fixpoint escapeChars (cls : ascii -> bool) (s : string) : string :=
  match s with
  | "" => ""
  | String c s' =>
      if cls c then String "\" (String c (escapeChars cls s'))
      else String c (escapeChars cls s')
  end.

(** [String(n)] and [`${n}`] for a natural number. *)
Definition ofNat (n : nat) : string := pretty n.

End JS.

Infix "|||" := JS.or (at level 50, left associativity).

(** ** The report contract ([src/reporting/types.ts]) *)

Inductive ReconElementType :=
| T_button | T_link | T_input | T_select | T_textarea | T_other.

Global Instance ReconElementType_eq_dec : EqDecision ReconElementType.
Proof. solve_decision. Defined.

(** The string a [ReconElementType] is at run time. *)
Definition typeName (t : ReconElementType) : string :=
  match t with
  | T_button => "button"
  | T_link => "link"
  | T_input => "input"
  | T_select => "select"
  | T_textarea => "textarea"
  | T_other => "other"
  end.

Module ReconElement.
Record t := mk {
  type : ReconElementType;
  tagName : string;
  role : option string;
  accessibleName : option string;
  labelText : option string;
  testId : option string;
  text : option string;
  id : option string;
  name : option string;
  href : option string;
  placeholder : option string;
  ariaLabel : option string;
  disabled : option bool;
  ariaDisabled : option bool;
  typeAttr : option string;
  value : option string;
  css : option string;
  xpath : option string
}.
End ReconElement.

Module ReconReport.
Record t := mk {
  url : string;
  scannedAt : string;
  counts : gmap string nat;
  elements : list ReconElement.t
}.
End ReconReport.

(** ** The page model ([src/model/pageModel.ts]) *)

Inductive ElementKind :=
| K_button | K_link | K_textbox | K_checkbox | K_radio
| K_select | K_textarea | K_other.

Inductive Strategy :=
| S_testId | S_role | S_label | S_placeholder | S_css | S_xpath.

(** A locator hint as it exists at run time: the [value] of a
    value-based hint can be [undefined] before the final filter of
    [buildLocators], because the non-null assertion [!] is erased. *)
Inductive LocatorHint :=
| ByTestId (value : option string)
| ByRole (role : string) (name : option string)
| ByLabel (value : option string)
| ByPlaceholder (value : option string)
| ByCss (value : option string)
| ByXpath (value : option string).

Definition strategy (l : LocatorHint) : Strategy :=
  match l with
  | ByTestId _ => S_testId
  | ByRole _ _ => S_role
  | ByLabel _ => S_label
  | ByPlaceholder _ => S_placeholder
  | ByCss _ => S_css
  | ByXpath _ => S_xpath
  end.

Module Flags.
Record t := mk {
  disabled : option bool;
  ariaDisabled : option bool
}.
End Flags.

Module ElementModel.
Record t := mk {
  id : string;
  kind : ElementKind;
  name : option string;
  tagName : string;
  role : option string;
  href : option string;
  locators : list LocatorHint;
  flags : Flags.t
}.
End ElementModel.

Module PageModel.
Record t := mk {
  url : string;
  domain : string;
  scannedAt : string;
  title : option string;
  elements : list ElementModel.t
}.
End PageModel.

(** ** Exceptions *)

Inductive JsError := TypeError (message : string).

Inductive Completion (A : Type) :=
| Normal (a : A)
| Throw (e : JsError).
Arguments Normal {A} a.
Arguments Throw {A} e.

Definition bind {A B} (c : Completion A) (k : A -> Completion B)
  : Completion B :=
  match c with Normal a => k a | Throw e => Throw e end.

Notation "'let!' x ':=' c 'in' k" := (bind c (fun x => k))
  (at level 10, x name, c at level 100, k at level 200).

(** ** The platform's URL class

    [new URL(s)] belongs to the run time, not to the repository: the
    builder is parameterised by it.  [UrlParser] gives, for a string,
    the parsed URL or nothing when the constructor throws. *)

Module URL.
Record t := mk { protocol : string; hostname : string }.
End URL.

Definition UrlParser := string -> option URL.t.

Definition newURL (parse : UrlParser) (s : string) : Completion URL.t :=
  match parse s with
  | Some u => Normal u
  | None => Throw (TypeError "Invalid URL")
  end.

(** ** [src/model/buildPageModel.ts] *)

Definition domainFromUrl (parse : UrlParser) (url : string)
  : Completion string :=
  let! u := newURL parse url in
  Normal (JS.stripPrefix "www." (URL.hostname u)).

Definition normalizeWhitespace (s : string) : string :=
  JS.replaceRuns JS.isWhiteSpace " " (JS.trim s).

Definition safeName (s : option string) : option string :=
  if negb (JS.truthy s) then None
  else
    let v := normalizeWhitespace (default "" s) in
    if JS.nonEmpty v then Some (JS.slice0 80 v) else None.

Definition kindFromRecon (el : ReconElement.t) : ElementKind :=
  match ReconElement.type el with
  | T_button => K_button
  | T_link => K_link
  | T_input => K_textbox
  | T_select => K_select
  | T_textarea => K_textarea
  | T_other => K_other
  end.

Definition buildName (el : ReconElement.t) : option string :=
  safeName (ReconElement.accessibleName el)
  ||| safeName (ReconElement.labelText el)
  ||| safeName (ReconElement.ariaLabel el)
  ||| safeName (ReconElement.name el)
  ||| safeName (ReconElement.id el)
  ||| safeName (ReconElement.text el).

(** The final filter of [buildLocators]. *)
Definition keepLocator (l : LocatorHint) : bool :=
  match l with
  | ByRole role _ => JS.nonEmpty role
  | ByTestId value | ByLabel value | ByPlaceholder value
  | ByCss value | ByXpath value => JS.truthy value
  end.

(** [if (c) locators.push(h)]. *)
Definition pushIf (c : bool) (h : LocatorHint) (locators : list LocatorHint)
  : list LocatorHint :=
  if c then locators ++ [h] else locators.

Definition buildLocators (el : ReconElement.t) : list LocatorHint :=
  let testId := ReconElement.testId el in
  let role := ReconElement.role el in
  let accessibleName := ReconElement.accessibleName el in
  let labelText := ReconElement.labelText el in
  let locators := [] in
  let locators := pushIf (JS.truthy testId) (ByTestId testId) locators in
  let locators :=
    pushIf (JS.truthy role)
      (ByRole (default "" role) (safeName accessibleName)) locators in
  let locators :=
    pushIf (JS.truthy labelText) (ByLabel (safeName labelText)) locators in
  let locators :=
    pushIf (JS.truthy (ReconElement.placeholder el))
      (ByPlaceholder (ReconElement.placeholder el)) locators in
  let locators :=
    pushIf (JS.truthy (ReconElement.css el))
      (ByCss (ReconElement.css el)) locators in
  let locators :=
    pushIf (JS.truthy (ReconElement.xpath el))
      (ByXpath (ReconElement.xpath el)) locators in
  List.filter keepLocator locators.

(** The [base] of [stableElementId]: the first truthy signal, and the
    literal [element-<index>] when there is none. *)
Definition idBase (el : ReconElement.t) (index : nat) : string :=
  default ""
    (ReconElement.testId el
     ||| ReconElement.id el
     ||| ReconElement.name el
     ||| ReconElement.ariaLabel el
     ||| ReconElement.text el
     ||| Some (ReconElement.tagName el)
     ||| Some ("element-" +:+ JS.ofNat index)).

Definition slugOf (base : string) : string :=
  JS.slice0 50
    (JS.stripEnds JS.isHyphen
       (JS.replaceRuns JS.notLowerAlnum "-"
          (JS.toLowerCase (normalizeWhitespace base)))).

Definition stableElementId (el : ReconElement.t) (index : nat) : string :=
  let base := idBase el index in
  let slug := slugOf base in
  typeName (ReconElement.type el) +:+ "-"
  +:+ default "" (Some slug ||| Some "unnamed") +:+ "-"
  +:+ JS.ofNat index.

(** The object built for one element by the [map] callback. *)
Definition elementModel (el : ReconElement.t) (index : nat)
  : ElementModel.t :=
  {| ElementModel.id := stableElementId el index;
     ElementModel.kind := kindFromRecon el;
     ElementModel.name := buildName el;
     ElementModel.tagName := ReconElement.tagName el;
     ElementModel.role := ReconElement.role el;
     ElementModel.href :=
       match ReconElement.type el with
       | T_link => ReconElement.href el
       | _ => None
       end;
     ElementModel.locators := buildLocators el;
     ElementModel.flags :=
       {| Flags.disabled := ReconElement.disabled el;
          Flags.ariaDisabled := ReconElement.ariaDisabled el |} |}.

(** [xs.map((x, index) => f(x, index))]. *)
Definition mapIndexed {A B} (f : A -> nat -> B) (xs : list A) : list B :=
  imap (fun index x => f x index) xs.

Definition buildPageModel (parse : UrlParser) (report : ReconReport.t)
    (title : option string) : Completion PageModel.t :=
  let! domain := domainFromUrl parse (ReconReport.url report) in
  let elements := mapIndexed elementModel (ReconReport.elements report) in
  Normal
    {| PageModel.url := ReconReport.url report;
       PageModel.domain := domain;
       PageModel.scannedAt := ReconReport.scannedAt report;
       PageModel.title := title;
       PageModel.elements := elements |}.

(** ** The rendered page, as the in-page helpers see it

    [scanUrl] evaluates its helpers inside the browser.  [Dom.Element]
    records what they read from one element, and [Dom.Document] what
    they ask of the document: all its elements in document order, and
    the label that points at an id. *)

(** A JavaScript number, as far as the helpers look at it. *)
Inductive JsNumber :=
| NaN
| Finite (q : Q)
| PlusInfinity
| MinusInfinity.

(** [Number.isNaN(n)]. *)
Definition isNaN (n : JsNumber) : bool :=
  match n with NaN => true | _ => false end.

(** [n >= 0]. *)
Definition geZero (n : JsNumber) : bool :=
  match n with
  | NaN | MinusInfinity => false
  | Finite q => Qle_bool 0 q
  | PlusInfinity => true
  end.

(** [n === 0]. *)
Definition isZero (n : JsNumber) : bool :=
  match n with Finite q => Qeq_bool q 0 | _ => false end.

Module Dom.

Record Ancestor := mkAncestor {
  ancestorTagName : string;
  ancestorPrecedingSiblings : list string
}.

Record Style := mkStyle {
  display : string;
  visibility : string;
  opacity : string
}.

Record Element := mkElement {
  (** [e.tagName] *)
  tagName : string;
  (** [e.getAttribute(name)]; an absent attribute is [null] *)
  attributes : gmap string string;
  (** [e.textContent] *)
  textContent : string;
  (** [window.getComputedStyle(e)] *)
  computedStyle : Style;
  (** [Boolean((e as any).hidden)] *)
  hidden : bool;
  (** width and height of [e.getBoundingClientRect()] *)
  rectWidth : JsNumber;
  rectHeight : JsNumber;
  (** [(e as any).disabled === true] *)
  disabledProperty : bool;
  (** [typeof (e as any).onclick === "function"] *)
  onclickIsFunction : bool;
  (** [textContent] of [e.closest("label")], when there is one *)
  closestLabel : option string;
  (** [tagName] of the previous element siblings, nearest first *)
  precedingSiblings : list string;
  (** the chain of [parentElement]s, nearest first *)
  ancestors : list Ancestor
}.

Record Document := mkDocument {
  (** [Array.from(document.querySelectorAll("*"))] *)
  allElements : list Element;
  (** [textContent] of the first [label] whose [for] is the given id *)
  labelFor : string -> option string
}.

Definition getAttribute (e : Element) (name : string) : option string :=
  attributes e !! name.

(** [e.parentElement?.tagName]. *)
Definition parentTagName (e : Element) : option string :=
  ancestorTagName <$> head (ancestors e).

End Dom.

(** ** [src/recon/scanPage.ts] *)

Module RawEl.
Record t := mk {
  tag : string;
  role : option string;
  typeAttr : option string;
  value : option string;
  text : option string;
  id : option string;
  name : option string;
  href : option string;
  placeholder : option string;
  ariaLabel : option string;
  ariaDisabled : option bool;
  disabled : option bool;
  testId : option string;
  labelText : option string;
  accessibleName : option string;
  css : option string;
  xpath : option string
}.
End RawEl.

Definition INTERACTIVE_ROLES : gset string :=
  {[ "button"; "link"; "textbox"; "checkbox"; "radio"; "switch";
     "combobox"; "listbox"; "option"; "menuitem"; "tab"; "slider";
     "spinbutton" ]}.

(** [set.has(s)]. *)
Definition has (set : gset string) (s : string) : bool :=
  bool_decide (s ∈ set).

(** [v === "literal"] for [v : string | undefined]. *)
Definition strictEq (v : option string) (lit : string) : bool :=
  bool_decide (v = Some lit).

(** [s === "literal"] for a string. *)
Definition strEq (s lit : string) : bool := bool_decide (s = lit).

(** [role && INTERACTIVE_ROLES.has(role)]. *)
Definition isInteractiveRole (role : option string) : bool :=
  JS.truthy role && has INTERACTIVE_ROLES (default "" role).

Definition normalizeType (raw : RawEl.t) : ReconElementType :=
  let role := JS.toLowerCase <$> RawEl.role raw in
  let tag := JS.toLowerCase (RawEl.tag raw) in
  let inputType := JS.toLowerCase <$> RawEl.typeAttr raw in
  if isInteractiveRole role then
    if strictEq role "textbox" then T_input
    else if strictEq role "combobox" || strictEq role "listbox" then T_select
    else if strictEq role "link" then T_link
    else if strictEq role "button" then T_button
    else T_other
  else if strEq tag "button" then T_button
  else if strEq tag "a" && JS.truthy (RawEl.href raw) then T_link
  else if strEq tag "select" then T_select
  else if strEq tag "textarea" then T_textarea
  else if strEq tag "input" then
    if strictEq inputType "button" || strictEq inputType "submit"
       || strictEq inputType "reset"
    then T_button
    else T_input
  else T_other.

(** *** Helpers evaluated inside the page *)

Section InPage.

(** [Number(s)] of the run time. *)
Variable Number : string -> JsNumber.

Variable document : Dom.Document.

(** The set literal of the in-page function. *)
Definition interactiveRoles : gset string :=
  {[ "button"; "link"; "textbox"; "checkbox"; "radio"; "switch";
     "combobox"; "listbox"; "option"; "menuitem"; "tab"; "slider";
     "spinbutton" ]}.

Definition isVisible (e : Dom.Element) : bool :=
  let style := Dom.computedStyle e in
  if strEq (Dom.display style) "none"
     || strEq (Dom.visibility style) "hidden"
     || strEq (Dom.opacity style) "0"
  then false
  else if Dom.hidden e then false
  else if isZero (Dom.rectWidth e) || isZero (Dom.rectHeight e) then false
  else if strictEq (Dom.getAttribute e "aria-hidden") "true" then false
  else true.

(** [typeof e.onclick === "function" || e.getAttribute("onclick") !== null]. *)
Definition hasClickHandler (e : Dom.Element) : bool :=
  Dom.onclickIsFunction e
  || bool_decide (Dom.getAttribute e "onclick" ≠ None).

Definition isCandidate (e : Dom.Element) : bool :=
  if negb (isVisible e) then false
  else
    let tag := JS.toLowerCase (Dom.tagName e) in
    let role :=
      JS.toLowerCase (default "" (Dom.getAttribute e "role" ||| Some "")) in
    let tabindex := Dom.getAttribute e "tabindex" in
    let hasTabindex :=
      match tabindex with
      | Some t => negb (isNaN (Number t)) && geZero (Number t)
      | None => false
      end in
    let contentEditable :=
      strictEq (Dom.getAttribute e "contenteditable") "true" in
    let nativeInteractive :=
      strEq tag "button"
      || (strEq tag "a" && bool_decide (Dom.getAttribute e "href" ≠ None))
      || strEq tag "input"
      || strEq tag "select"
      || strEq tag "textarea"
      || (strEq tag "summary"
          && strictEq (JS.toLowerCase <$> Dom.parentTagName e) "details") in
    let ariaInteractive := negb (strEq role "") && has interactiveRoles role in
    nativeInteractive || ariaInteractive || hasTabindex
    || hasClickHandler e || contentEditable.

(** The second filter: a [div] or [span] stays only with a role, a
    tabindex or a click handler. *)
Definition keepContainer (e : Dom.Element) : bool :=
  let tag := JS.toLowerCase (Dom.tagName e) in
  if strEq tag "div" || strEq tag "span" then
    JS.truthy (Dom.getAttribute e "role")
    || JS.truthy (Dom.getAttribute e "tabindex")
    || hasClickHandler e
  else true.

Definition isDisabled (e : Dom.Element) : bool * bool :=
  let disabled :=
    Dom.disabledProperty e
    || bool_decide (Dom.getAttribute e "disabled" ≠ None) in
  let ariaDisabled := strictEq (Dom.getAttribute e "aria-disabled") "true" in
  (disabled, ariaDisabled).

Definition getText (e : Dom.Element) : option string :=
  let txt :=
    JS.replaceRuns JS.isWhiteSpace " "
      (JS.trim (default "" (Some (Dom.textContent e) ||| Some ""))) in
  if JS.nonEmpty txt then Some (JS.slice0 200 txt) else None.

Definition cssEscape (value : string) : string :=
  JS.escapeChars JS.needsCssEscape value.

(** The double quote, as a one-character string. *)
Definition dq : string := String "034" "".

Definition bestCss (e : Dom.Element) : string :=
  let tag := JS.toLowerCase (Dom.tagName e) in
  let testId :=
    Dom.getAttribute e "data-testid"
    ||| Dom.getAttribute e "data-test"
    ||| Dom.getAttribute e "data-test-id" in
  if JS.truthy testId then
    let v := cssEscape (default "" testId) in
    "[data-testid=" +:+ dq +:+ v +:+ dq +:+ "], [data-test=" +:+ dq
    +:+ v +:+ dq +:+ "], [data-test-id=" +:+ dq +:+ v +:+ dq +:+ "]"
  else
    let id := Dom.getAttribute e "id" in
    if JS.truthy id then "#" +:+ cssEscape (default "" id)
    else
      let name := Dom.getAttribute e "name" in
      if JS.truthy name then
        tag +:+ "[name=" +:+ dq +:+ cssEscape (default "" name)
        +:+ dq +:+ "]"
      else
        let ariaLabel := Dom.getAttribute e "aria-label" in
        if JS.truthy ariaLabel then
          tag +:+ "[aria-label=" +:+ dq
          +:+ cssEscape (default "" ariaLabel) +:+ dq +:+ "]"
        else tag.

(** One step of the path: [tag[index]], the index counting the
    preceding siblings of the same tag from 1. *)
Definition xpathPart (tagName : string) (preceding : list string)
  : string :=
  let tag := JS.toLowerCase tagName in
  let index :=
    foldl
      (fun index sibling =>
         if bool_decide (JS.toLowerCase sibling = tag)
         then index + 1 else index)
      1 preceding in
  tag +:+ "[" +:+ JS.ofNat index +:+ "]".

Definition xpathFor (e : Dom.Element) : string :=
  let id := Dom.getAttribute e "id" in
  if JS.truthy id then
    "//*[@id=" +:+ dq +:+ default "" id +:+ dq +:+ "]"
  else
    let parts :=
      foldl
        (fun parts node =>
           xpathPart (Dom.ancestorTagName node)
             (Dom.ancestorPrecedingSiblings node) :: parts)
        [xpathPart (Dom.tagName e) (Dom.precedingSiblings e)]
        (Dom.ancestors e) in
    "/" +:+ String.concat "/" parts.

(** [t.replace(/\s+/g, " ").slice(0, 200)] of a trimmed label text. *)
Definition labelTextOf (t : string) : string :=
  JS.slice0 200 (JS.replaceRuns JS.isWhiteSpace " " t).

Definition findAssociatedLabelText (e : Dom.Element) : option string :=
  let id := Dom.getAttribute e "id" in
  let t :=
    if JS.truthy id
    then JS.trim <$> Dom.labelFor document (default "" id)
    else None in
  if JS.truthy t then Some (labelTextOf (default "" t))
  else
    let t2 := JS.trim <$> Dom.closestLabel e in
    if JS.truthy t2 then Some (labelTextOf (default "" t2))
    else None.

Definition isInputButtonType (t : string) : bool :=
  bool_decide (t = "submit") || bool_decide (t = "button")
  || bool_decide (t = "reset").

Definition accessibleName (e : Dom.Element) : option string :=
  let tag := JS.toLowerCase (Dom.tagName e) in
  let aria := Dom.getAttribute e "aria-label" in
  if JS.truthy aria then aria
  else
    let label := findAssociatedLabelText e in
    if JS.truthy label then label
    else
      let v :=
        if bool_decide (tag = "input") then
          let t :=
            JS.toLowerCase
              (default "" (Dom.getAttribute e "type" ||| Some "text")) in
          if isInputButtonType t then Dom.getAttribute e "value" else None
        else None in
      if JS.truthy v then v
      else
        let alt := Dom.getAttribute e "alt" in
        if JS.truthy alt then alt else getText e.

(** The record returned for one candidate node by the last [map] of
    the in-page function. *)
Definition rawElement (e : Dom.Element) : RawEl.t :=
  let tag := JS.toLowerCase (Dom.tagName e) in
  let role := JS.orUndefined (Dom.getAttribute e "role") in
  let typeAttr :=
    if bool_decide (tag = "input")
    then Dom.getAttribute e "type" ||| Some "text" else None in
  let '(disabled, ariaDisabled) := isDisabled e in
  let testId :=
    Dom.getAttribute e "data-testid"
    ||| Dom.getAttribute e "data-test"
    ||| Dom.getAttribute e "data-test-id"
    ||| None in
  let href :=
    if bool_decide (tag = "a")
    then JS.orUndefined (Dom.getAttribute e "href") else None in
  let placeholder :=
    if bool_decide (tag = "input") || bool_decide (tag = "textarea")
    then JS.orUndefined (Dom.getAttribute e "placeholder") else None in
  let value :=
    if bool_decide (tag = "input")
    then JS.orUndefined (Dom.getAttribute e "value") else None in
  let labelText := findAssociatedLabelText e in
  {| RawEl.tag := tag;
     RawEl.role := role;
     RawEl.typeAttr := typeAttr;
     RawEl.value := value;
     RawEl.text := getText e;
     RawEl.id := JS.orUndefined (Dom.getAttribute e "id");
     RawEl.name := JS.orUndefined (Dom.getAttribute e "name");
     RawEl.href := href;
     RawEl.placeholder := placeholder;
     RawEl.ariaLabel := JS.orUndefined (Dom.getAttribute e "aria-label");
     RawEl.ariaDisabled := Some ariaDisabled;
     RawEl.disabled := Some disabled;
     RawEl.testId := testId;
     RawEl.labelText := labelText;
     RawEl.accessibleName := accessibleName e;
     RawEl.css := Some (bestCss e);
     RawEl.xpath := Some (xpathFor e) |}.

(** The function evaluated in the page: candidates, containers without
    signal removed, one raw element per remaining node. *)
Definition evaluate : list RawEl.t :=
  let all := List.filter isCandidate (Dom.allElements document) in
  let filtered := List.filter keepContainer all in
  map rawElement filtered.

End InPage.

(** *** The part of [scanUrl] that runs outside the page *)

(** [RawEl] to [ReconElement]: the object literal of the second [map]. *)
Definition toReconElement (r : RawEl.t) : ReconElement.t :=
  {| ReconElement.type := normalizeType r;
     ReconElement.tagName := RawEl.tag r;
     ReconElement.typeAttr := RawEl.typeAttr r;
     ReconElement.value := RawEl.value r;
     ReconElement.text := RawEl.text r;
     ReconElement.id := RawEl.id r;
     ReconElement.name := RawEl.name r;
     ReconElement.href :=
       if bool_decide (RawEl.tag r = "a") then RawEl.href r else None;
     ReconElement.ariaLabel := RawEl.ariaLabel r;
     ReconElement.placeholder := RawEl.placeholder r;
     ReconElement.css := RawEl.css r;
     ReconElement.xpath := RawEl.xpath r;
     ReconElement.role := RawEl.role r;
     ReconElement.testId := RawEl.testId r;
     ReconElement.accessibleName := RawEl.accessibleName r;
     ReconElement.labelText := RawEl.labelText r;
     (* the literal does not list these two properties *)
     ReconElement.disabled := None;
     ReconElement.ariaDisabled := None |}.

(** [acc[e.type] = (acc[e.type] ?? 0) + 1]. *)
Definition countOne (acc : gmap string nat) (e : ReconElement.t)
  : gmap string nat :=
  let k := typeName (ReconElement.type e) in
  <[k := default 0 (acc !! k) + 1]> acc.

Definition allTypes : list ReconElementType :=
  [T_button; T_link; T_input; T_select; T_textarea; T_other].

(** [counts[t] = counts[t] ?? 0]. *)
Definition ensureKey (counts : gmap string nat) (t : ReconElementType)
  : gmap string nat :=
  <[typeName t := default 0 (counts !! typeName t)]> counts.

Definition countsOf (elements : list ReconElement.t) : gmap string nat :=
  let counts := foldl countOne ∅ elements in
  foldl ensureKey counts allTypes.

(** [scanUrl] after navigation.  [document] is the page as rendered at
    [domcontentloaded]; [now] is the ISO string of the clock at the end
    of the scan. *)
Definition scanUrl (Number : string -> JsNumber) (url now : string)
    (document : Dom.Document) : ReconReport.t :=
  let rawElements := evaluate Number document in
  let elements := map toReconElement rawElements in
  {| ReconReport.url := url;
     ReconReport.scannedAt := now;
     ReconReport.counts := countsOf elements;
     ReconReport.elements := elements |}.

(** *** The earlier revision of [scanPage.ts], where it differs *)

Module Earlier.

Definition normalizeType (raw : RawEl.t) : ReconElementType :=
  let role := JS.toLowerCase <$> RawEl.role raw in
  let tag := JS.toLowerCase (RawEl.tag raw) in
  if isInteractiveRole role then
    if strictEq role "textbox" then T_input
    else if strictEq role "combobox" || strictEq role "listbox"
    then T_select
    else if strictEq role "link" then T_link
    else if strictEq role "button" then T_button
    else T_other
  else if strEq tag "button" then T_button
  else if strEq tag "a" && JS.truthy (RawEl.href raw) then T_link
  else if strEq tag "select" then T_select
  else if strEq tag "textarea" then T_textarea
  else if strEq tag "input" then T_input
  else T_other.

Definition accessibleName (document : Dom.Document) (e : Dom.Element)
  : option string :=
  Dom.getAttribute e "aria-label"
  ||| findAssociatedLabelText document e
  ||| JS.orUndefined (Dom.getAttribute e "alt")
  ||| getText e.

End Earlier.

(** ** Vocabulary of the specification

    The definitions below follow the wording of the specification; the
    theorems compare them with the code above. *)

(** First of a list of optional strings that is present and non-empty. *)
Fixpoint firstNonEmpty (signals : list (option string)) : option string :=
  match signals with
  | [] => None
  | v :: rest => if JS.truthy v then v else firstNonEmpty rest
  end.

(** A name signal is present when it is non-empty after normalization. *)
Definition presentName (v : option string) : bool :=
  match v with
  | Some s => JS.nonEmpty (normalizeWhitespace s)
  | None => false
  end.

Fixpoint firstPresentName (signals : list (option string)) : option string :=
  match signals with
  | [] => None
  | v :: rest => if presentName v then v else firstPresentName rest
  end.

(** Name precedence: accessible name, label text, aria-label, name
    attribute, id attribute, visible text. *)
Definition nameSignals (el : ReconElement.t) : list (option string) :=
  [ ReconElement.accessibleName el; ReconElement.labelText el;
    ReconElement.ariaLabel el; ReconElement.name el;
    ReconElement.id el; ReconElement.text el ].

(** The truncated-and-normalized form of a name. *)
Definition displayForm (s : string) : string :=
  JS.slice0 80 (normalizeWhitespace s).

(** Slug precedence: test-id, DOM id, name attribute, aria-label,
    visible text, tag name. *)
Definition slugSignals (el : ReconElement.t) : list (option string) :=
  [ ReconElement.testId el; ReconElement.id el; ReconElement.name el;
    ReconElement.ariaLabel el; ReconElement.text el;
    Some (ReconElement.tagName el) ].

(** Whitespace-normalized, lowercased, non-alphanumeric runs collapsed
    to single hyphens, leading and trailing hyphens trimmed, capped at
    50 characters. *)
Definition slugSteps (base : string) : string :=
  let normalized := normalizeWhitespace base in
  let lowered := JS.toLowerCase normalized in
  let hyphenated := JS.replaceRuns JS.notLowerAlnum "-" lowered in
  let trimmed := JS.stripEnds JS.isHyphen hyphenated in
  JS.slice0 50 trimmed.

Definition orUnnamed (slug : string) : string :=
  match slug with "" => "unnamed" | _ => slug end.

(** The identifier with a given slug. *)
Definition idWithSlug (el : ReconElement.t) (slug : string) (i : nat)
  : string :=
  typeName (ReconElement.type el) +:+ "-" +:+ slug +:+ "-" +:+ JS.ofNat i.

(** The identifier as the specification words it: the slug comes from
    the first available of the six signals, and is empty when none is. *)
Definition specifiedId (el : ReconElement.t) (i : nat) : string :=
  let base := default "" (firstNonEmpty (slugSignals el)) in
  idWithSlug el (orUnnamed (slugSteps base)) i.

(** The identifier with the seventh fallback, [element-<i>]. *)
Definition specifiedIdWithFallback (el : ReconElement.t) (i : nat)
  : string :=
  let base :=
    default ("element-" +:+ JS.ofNat i) (firstNonEmpty (slugSignals el)) in
  idWithSlug el (orUnnamed (slugSteps base)) i.

(** The six strategies, best first. *)
Definition preferenceOrder : list Strategy :=
  [S_testId; S_role; S_label; S_placeholder; S_css; S_xpath].



(** A type attribute that is, case-insensitively, button, submit or
    reset. *)
Definition isButtonType (typeAttr : option string) : bool :=
  match typeAttr with
  | Some t => bool_decide (JS.toLowerCase t ∈ ["button"; "submit"; "reset"])
  | None => false
  end.

(** The hostname without one literal leading [www.]. *)
Definition withoutLeadingWww (hostname : string) : string :=
  match hostname with
  | String "w" (String "w" (String "w" (String "." rest))) => rest
  | _ => hostname
  end.

(** Sum of the values of a counts object. *)
Definition sumOfCounts (counts : gmap string nat) : nat :=
  map_fold (fun _ n acc => n + acc) 0 counts.

(** Number of elements of a semantic type. *)
Definition occurrences (t : ReconElementType)
    (elements : list ReconElement.t) : nat :=
  length (List.filter (fun e => bool_decide (ReconElement.type e = t))
            elements).

(** A string without hyphen. *)
Fixpoint noHyphen (s : string) : bool :=
  match s with
  | "" => true
  | String c s' => negb (JS.isHyphen c) && noHyphen s'
  end.

(** *** Normalized text

    The shape of a whitespace-normalized string: it does not start or
    end with white space, and each white-space character in it is one
    space followed by a character that is not white space. *)

Definition startsClean (s : string) : bool :=
  match s with
  | "" => false
  | String c _ => negb (JS.isWhiteSpace c)
  end.

Fixpoint endsClean (s : string) : bool :=
  match s with
  | "" => true
  | String c s' =>
      match s' with
      | "" => negb (JS.isWhiteSpace c)
      | String _ _ => endsClean s'
      end
  end.

Fixpoint singleSpaced (s : string) : bool :=
  match s with
  | "" => true
  | String c s' =>
      if JS.isWhiteSpace c
      then bool_decide (c = " "%char) && startsClean s' && singleSpaced s'
      else singleSpaced s'
  end.

Definition isNormalized (s : string) : bool :=
  match s with
  | "" => true
  | String _ _ => startsClean s && singleSpaced s
  end.

(** ** Sample data *)

Module Sample.

(** A reading of http and https URLs whose authority is a host name
    with an optional port: the scheme and the host are lower-cased,
    the host ends at the first of [: / ? #] and must not be empty. *)
Definition isHostEnd (c : ascii) : bool :=
  match c with
  | ":" | "/" | "?" | "#" | "\" => true
  | _ => false
  end%char.

Fixpoint takeUntil (cls : ascii -> bool) (s : string) : string :=
  match s with
  | "" => ""
  | String c s' => if cls c then "" else String c (takeUntil cls s')
  end.

Definition hostAfter (scheme rest : string) : option URL.t :=
  let host := JS.toLowerCase (takeUntil isHostEnd rest) in
  if JS.nonEmpty host then Some (URL.mk (scheme +:+ ":") host) else None.

Definition parseUrl : UrlParser := fun s =>
  if String.prefix "https://" (JS.toLowerCase (substring 0 8 s))
  then hostAfter "https" (substring 8 (String.length s - 8) s)
  else if String.prefix "http://" (JS.toLowerCase (substring 0 7 s))
  then hostAfter "http" (substring 7 (String.length s - 7) s)
  else None.

(** An element with only the required properties. *)
Definition bare (type : ReconElementType) (tagName : string)
  : ReconElement.t :=
  ReconElement.mk type tagName None None None None None None None None
    None None None None None None None None.

(** An element with all six locator signals, after the one of the
    locator-order unit test. *)
Definition zip : ReconElement.t :=
  {| ReconElement.type := T_input;
     ReconElement.tagName := "input";
     ReconElement.role := Some "textbox";
     ReconElement.accessibleName := Some "Zip Code";
     ReconElement.labelText := Some "Zip Code";
     ReconElement.testId := Some "zip";
     ReconElement.text := None;
     ReconElement.id := None;
     ReconElement.name := None;
     ReconElement.href := None;
     ReconElement.placeholder := Some "Zip Code";
     ReconElement.ariaLabel := None;
     ReconElement.disabled := None;
     ReconElement.ariaDisabled := None;
     ReconElement.typeAttr := None;
     ReconElement.value := None;
     ReconElement.css := Some "input[name=zip]";
     ReconElement.xpath := Some "//*[@id=zip]" |}.


Definition report (url : string) (elements : list ReconElement.t)
  : ReconReport.t :=
  {| ReconReport.url := url;
     ReconReport.scannedAt := "2026-01-18T00:00:00.000Z";
     ReconReport.counts := countsOf elements;
     ReconReport.elements := elements |}.

(** Seventy-nine letters, a space, one more letter. *)
Definition longName : string :=
  "aaaaaaaaaaaaaaaaaaaaaaaaaaaaaaaaaaaaaaaaaaaaaaaaaaaaaaaaaaaaaaaaaaaaaaaaaaaaaaa b".

(** A reading of [Number] for the samples: the empty string is 0, a
    string of decimal digits is its value, anything else is not a
    number. *)
Fixpoint digitsValue (acc : N) (s : string) : option N :=
  match s with
  | "" => Some acc
  | String c s' =>
      let n := N_of_ascii c in
      if ((48 <=? n) && (n <=? 57))%N
      then digitsValue (acc * 10 + (n - 48)) s'
      else None
  end.

Definition toNumber (s : string) : JsNumber :=
  match digitsValue 0 s with
  | Some n => Finite (Z.of_N n # 1)
  | None => NaN
  end.

Definition shown : Dom.Style := Dom.mkStyle "block" "visible" "1".

Definition underBody : list Dom.Ancestor :=
  [Dom.mkAncestor "BODY" []; Dom.mkAncestor "HTML" []].

(** A [div] with text and nothing that makes it a candidate. *)
Definition plainDiv : Dom.Element :=
  {| Dom.tagName := "DIV";
     Dom.attributes := ∅;
     Dom.textContent := "Welcome";
     Dom.computedStyle := shown;
     Dom.hidden := false;
     Dom.rectWidth := Finite (300 # 1);
     Dom.rectHeight := Finite (20 # 1);
     Dom.disabledProperty := false;
     Dom.onclickIsFunction := false;
     Dom.closestLabel := None;
     Dom.precedingSiblings := [];
     Dom.ancestors := underBody |}.

(** A [button] with the attributes [disabled] and [aria-disabled=true]
    and the text Save. *)
Definition disabledButton : Dom.Element :=
  {| Dom.tagName := "BUTTON";
     Dom.attributes := {[ "disabled" := ""; "aria-disabled" := "true" ]};
     Dom.textContent := "Save";
     Dom.computedStyle := shown;
     Dom.hidden := false;
     Dom.rectWidth := Finite (80 # 1);
     Dom.rectHeight := Finite (24 # 1);
     Dom.disabledProperty := true;
     Dom.onclickIsFunction := false;
     Dom.closestLabel := None;
     Dom.precedingSiblings := ["DIV"];
     Dom.ancestors := underBody |}.

(** An [input] of type submit with value Go and alt Send. *)
Definition submitInput : Dom.Element :=
  {| Dom.tagName := "INPUT";
     Dom.attributes :=
       {[ "type" := "submit"; "value" := "Go"; "alt" := "Send" ]};
     Dom.textContent := "";
     Dom.computedStyle := shown;
     Dom.hidden := false;
     Dom.rectWidth := Finite (60 # 1);
     Dom.rectHeight := Finite (24 # 1);
     Dom.disabledProperty := false;
     Dom.onclickIsFunction := false;
     Dom.closestLabel := None;
     Dom.precedingSiblings := ["BUTTON"; "DIV"];
     Dom.ancestors := underBody |}.

(** A page with the plain [div] and the disabled button. *)
Definition page : Dom.Document :=
  {| Dom.allElements := [plainDiv; disabledButton];
     Dom.labelFor := fun _ => None |}.

End Sample.

(** ** [src/cli/commands/scan.ts]: [parseUrl] *)

(** The two errors [parseUrl] throws. *)
Inductive CliError :=
| InvalidUrl (raw : string)
| UnsupportedProtocol (protocol : string).

(** The message of the thrown [Error]. *)
Definition errorMessage (e : CliError) : string :=
  match e with
  | InvalidUrl raw => "Invalid URL: " +:+ dq +:+ raw +:+ dq
  | UnsupportedProtocol protocol =>
      "URL must start with http:// or https:// (got " +:+ dq +:+ protocol
      +:+ dq +:+ ")"
  end.

Definition parseUrl (parse : UrlParser) (raw : string) : CliError + URL.t :=
  match newURL parse raw with
  | Throw _ => inl (InvalidUrl raw)
  | Normal url =>
      if negb (strEq (URL.protocol url) "http:")
         && negb (strEq (URL.protocol url) "https:")
      then inl (UnsupportedProtocol (URL.protocol url))
      else inr url
  end.

(** ** [src/reporting/writeJsonReport.ts] *)

(** [k] characters of [fill], repeated from its start; [rest] is what
    is left of the current copy. *)
Fixpoint fillChars (k : nat) (fill rest : string) : string :=
  match k with
  | 0 => ""
  | S k' =>
      match rest with
      | String c r => String c (fillChars k' fill r)
      | "" =>
          match fill with
          | String c r => String c (fillChars k' fill r)
          | "" => ""
          end
      end
  end.

(** [s.padStart(target, fill)]. *)
Definition padStart (target : nat) (fill s : string) : string :=
  if (target <=? String.length s)%nat then s
  else fillChars (target - String.length s) fill fill +:+ s.

Definition pad2 (n : nat) : string := padStart 2 "0" (JS.ofNat n).

Definition safeSlug (input : string) : string :=
  JS.stripEnds JS.isHyphen
    (JS.replaceRuns JS.notLowerAlnum "-"
       (JS.stripPrefix "www." (JS.toLowerCase input))).

(** Removing [/-com$|-net$|-org$/g]: the one suffix at the end. *)
Fixpoint dropTldSuffix (s : string) : string :=
  if strEq s "-com" || strEq s "-net" || strEq s "-org" then ""
  else
    match s with
    | "" => ""
    | String c s' => String c (dropTldSuffix s')
    end.

(** What [buildReportFileName] reads from a [Date], in local time. *)
Module LocalTime.
Record t := mk {
  (** [getFullYear()] *)
  fullYear : nat;
  (** [getMonth()], from 0 *)
  month : nat;
  (** [getDate()] *)
  date : nat;
  hours : nat;
  minutes : nat;
  seconds : nat
}.
End LocalTime.

Definition buildReportFileName (parse : UrlParser) (reportUrl : string)
    (now : LocalTime.t) : Completion string :=
  let! u := newURL parse reportUrl in
  let mm := pad2 (LocalTime.month now + 1) in
  let dd := pad2 (LocalTime.date now) in
  let yyyy := JS.ofNat (LocalTime.fullYear now) in
  let hh := pad2 (LocalTime.hours now) in
  let min := pad2 (LocalTime.minutes now) in
  let ss := pad2 (LocalTime.seconds now) in
  let domain := safeSlug (URL.hostname u) in
  let domainShort := dropTldSuffix domain in
  Normal
    ("recon-report-" +:+ mm +:+ "-" +:+ dd +:+ "-" +:+ yyyy +:+ "-"
     +:+ domainShort +:+ "-" +:+ hh +:+ min +:+ ss +:+ ".json").

(** ** Vocabulary of the further properties *)

(** The nodes that reach the last [map] of the in-page function. *)
Definition survivors (Number : string -> JsNumber)
    (document : Dom.Document) : list Dom.Element :=
  List.filter keepContainer
    (List.filter (isCandidate Number) (Dom.allElements document)).

Fixpoint allChars (p : ascii -> bool) (s : string) : bool :=
  match s with
  | "" => true
  | String c s' => p c && allChars p s'
  end.

(** A character of a slug: [a-z], [0-9] or the hyphen. *)
Definition isSlugChar (c : ascii) : bool :=
  JS.isLowerAlnum c || JS.isHyphen c.

Definition startsWithHyphen (s : string) : bool :=
  match s with
  | String c _ => JS.isHyphen c
  | "" => false
  end.

Fixpoint endsWithHyphen (s : string) : bool :=
  match s with
  | "" => false
  | String c s' =>
      match s' with
      | "" => JS.isHyphen c
      | String _ _ => endsWithHyphen s'
      end
  end.

(** No two hyphens in a row. *)
Fixpoint singleHyphens (s : string) : bool :=
  match s with
  | "" => true
  | String c s' =>
      negb (JS.isHyphen c && startsWithHyphen s') && singleHyphens s'
  end.

(** The signal behind a strategy is usable: present and non-empty, and
    for the label non-empty after normalization. *)
Definition usable (el : ReconElement.t) (st : Strategy) : bool :=
  match st with
  | S_testId => JS.truthy (ReconElement.testId el)
  | S_role => JS.truthy (ReconElement.role el)
  | S_label =>
      JS.truthy (ReconElement.labelText el)
      && presentName (ReconElement.labelText el)
  | S_placeholder => JS.truthy (ReconElement.placeholder el)
  | S_css => JS.truthy (ReconElement.css el)
  | S_xpath => JS.truthy (ReconElement.xpath el)
  end.

(** An optional string that is absent or not empty. *)
Definition absentOrNonEmpty (v : option string) : bool :=
  match v with
  | Some s => JS.nonEmpty s
  | None => true
  end.

(** Reading an escaped string back: a backslash gives way to the
    character after it. *)
Fixpoint unescapeChars (s : string) : string :=
  match s with
  | "" => ""
  | String c s' =>
      if Ascii.eqb c "\"
      then match s' with
           | "" => ""
           | String d s'' => String d (unescapeChars s'')
           end
      else String c (unescapeChars s')
  end.

(** The type an interactive role maps to. *)
Definition typeOfRole (role : string) : ReconElementType :=
  if strEq role "textbox" then T_input
  else if strEq role "combobox" || strEq role "listbox" then T_select
  else if strEq role "link" then T_link
  else if strEq role "button" then T_button
  else T_other.

(** The kind of a semantic type. *)
Definition kindOf (t : ReconElementType) : ElementKind :=
  match t with
  | T_button => K_button
  | T_link => K_link
  | T_input => K_textbox
  | T_select => K_select
  | T_textarea => K_textarea
  | T_other => K_other
  end.

Global Instance ElementKind_eq_dec : EqDecision ElementKind.
Proof. solve_decision. Defined.

(** An optional string of at most [n] characters. *)
Definition withinLength (n : nat) (v : option string) : bool :=
  match v with
  | Some s => (String.length s <=? n)%nat
  | None => true
  end.

(** The value of a hint, when its strategy has one; the role of a role
    hint. *)
Definition hintValue (h : LocatorHint) : option string :=
  match h with
  | ByRole role _ => Some role
  | ByTestId value | ByLabel value | ByPlaceholder value
  | ByCss value | ByXpath value => value
  end.

(** A character of normalized text: not white space, or the plain
    space. *)
Definition plainOrSpace (c : ascii) : bool :=
  negb (JS.isWhiteSpace c) || Ascii.eqb c " ".

(** A character of a report file name: a slug character or the dot. *)
Definition isFileNameChar (c : ascii) : bool :=
  isSlugChar c || Ascii.eqb c ".".

(** A decimal digit, [0-9]. *)
Definition isDigit (c : ascii) : bool :=
  let n := N_of_ascii c in
  ((48 <=? n) && (n <=? 57))%N.

(** One step of the path of a node, and the steps of its ancestors,
    nearest first. *)
Definition ownStep (e : Dom.Element) : string :=
  xpathPart (Dom.tagName e) (Dom.precedingSiblings e).

Definition ancestorSteps (e : Dom.Element) : list string :=
  (fun a => xpathPart (Dom.ancestorTagName a)
              (Dom.ancestorPrecedingSiblings a)) <$> Dom.ancestors e.

(** The siblings with the tag of a node, compared in lower case. *)
Definition sameTag (tagName : string) (siblings : list string)
  : list string :=
  List.filter
    (fun sibling =>
       bool_decide (JS.toLowerCase sibling = JS.toLowerCase tagName))
    siblings.

(** The optional strings of a report element, its CSS selector apart:
    thirteen of the fourteen. The selector is left out because it is the
    bare tag name for a node without test-id, id, name and aria-label,
    and so is as empty as that tag name. *)
Definition scannedStrings (el : ReconElement.t) : list (option string) :=
  [ ReconElement.role el; ReconElement.accessibleName el;
    ReconElement.labelText el; ReconElement.testId el;
    ReconElement.text el; ReconElement.id el; ReconElement.name el;
    ReconElement.href el; ReconElement.placeholder el;
    ReconElement.ariaLabel el; ReconElement.typeAttr el;
    ReconElement.value el; ReconElement.xpath el ].

(** All fourteen optional strings of a report element. *)
Definition optionalStrings (el : ReconElement.t) : list (option string) :=
  ReconElement.css el :: scannedStrings el.

(** ** More sample data *)

Module Fixture.

(** An [input] with the id user.name, the second [input] of its form. *)
Definition userInput : Dom.Element :=
  {| Dom.tagName := "INPUT";
     Dom.attributes := {[ "id" := "user.name"; "type" := "text" ]};
     Dom.textContent := "";
     Dom.computedStyle := Sample.shown;
     Dom.hidden := false;
     Dom.rectWidth := Finite (120 # 1);
     Dom.rectHeight := Finite (24 # 1);
     Dom.disabledProperty := false;
     Dom.onclickIsFunction := false;
     Dom.closestLabel := None;
     Dom.precedingSiblings := ["LABEL"; "INPUT"; "LABEL"];
     Dom.ancestors :=
       Dom.mkAncestor "FORM" ["DIV"] :: Sample.underBody |}.

(** The same node without attribute. *)
Definition anonymousInput : Dom.Element :=
  {| Dom.tagName := "INPUT";
     Dom.attributes := ∅;
     Dom.textContent := "";
     Dom.computedStyle := Sample.shown;
     Dom.hidden := false;
     Dom.rectWidth := Finite (120 # 1);
     Dom.rectHeight := Finite (24 # 1);
     Dom.disabledProperty := false;
     Dom.onclickIsFunction := false;
     Dom.closestLabel := None;
     Dom.precedingSiblings := ["LABEL"; "INPUT"; "LABEL"];
     Dom.ancestors :=
       Dom.mkAncestor "FORM" ["DIV"] :: Sample.underBody |}.

(** An [input] of type text whose role attribute is written in
    capitals, as the in-page function hands it over. *)
Definition capitalRoleInput : RawEl.t :=
  {| RawEl.tag := "input";
     RawEl.role := Some "BUTTON";
     RawEl.typeAttr := Some "text";
     RawEl.value := None;
     RawEl.text := None;
     RawEl.id := None;
     RawEl.name := None;
     RawEl.href := None;
     RawEl.placeholder := None;
     RawEl.ariaLabel := None;
     RawEl.ariaDisabled := Some false;
     RawEl.disabled := Some false;
     RawEl.testId := None;
     RawEl.labelText := None;
     RawEl.accessibleName := None;
     RawEl.css := Some "input";
     RawEl.xpath := Some "/html[1]/body[1]/input[1]" |}.

(** Half past nine in the evening of 5 March 2026, local time. *)
Definition evening : LocalTime.t :=
  {| LocalTime.fullYear := 2026;
     LocalTime.month := 2;
     LocalTime.date := 5;
     LocalTime.hours := 21;
     LocalTime.minutes := 30;
     LocalTime.seconds := 7 |}.

End Fixture.

(** * Properties *)

(** ** Strings and truthiness *)

Lemma truthy_Some_nonempty s : s ≠ "" -> JS.truthy (Some s) = true.
Proof. destruct s; [congruence | reflexivity]. Qed.

Lemma truthy_inv v : JS.truthy v = true -> exists s, v = Some s /\ s ≠ "".
Proof.
  destruct v as [[|c s]|]; simpl; try discriminate.
  intros _. exists (String c s). split; [reflexivity | discriminate].
Qed.

Lemma nonEmpty_true s : JS.nonEmpty s = true <-> s ≠ "".
Proof. destruct s; simpl; split; congruence. Qed.

Lemma or_truthy a b : JS.truthy a = true -> a ||| b = a.
Proof. unfold JS.or. intros ->. reflexivity. Qed.

Lemma or_falsy a b : JS.truthy a = false -> a ||| b = b.
Proof. unfold JS.or. intros ->. reflexivity. Qed.

Lemma slice0_nonEmpty n s :
  JS.nonEmpty s = true -> JS.nonEmpty (JS.slice0 (S n) s) = true.
Proof. destruct s; [discriminate | reflexivity]. Qed.

(** [safeName] on a present string: the normalized text cut at 80, or
    nothing when the normalized text is empty. *)
Lemma safeName_Some s :
  safeName (Some s) =
  if JS.nonEmpty (normalizeWhitespace s) then Some (displayForm s) else None.
Proof. destruct s; reflexivity. Qed.

Lemma safeName_None : safeName None = None.
Proof. reflexivity. Qed.

Lemma safeName_present v :
  safeName v = if presentName v then displayForm <$> v else None.
Proof.
  destruct v as [s|]; [|reflexivity].
  rewrite safeName_Some. simpl. destruct (JS.nonEmpty _); reflexivity.
Qed.

(** What [safeName] returns is never the empty string. *)
Lemma safeName_truthy v : safeName v ≠ None -> JS.truthy (safeName v) = true.
Proof.
  destruct v as [s|]; [|intros []; reflexivity].
  rewrite safeName_Some.
  destruct (JS.nonEmpty (normalizeWhitespace s)) eqn:E; [|intros []; reflexivity].
  intros _. apply (slice0_nonEmpty 79). exact E.
Qed.

Lemma safeName_falsy v : safeName v = None -> JS.truthy (safeName v) = false.
Proof. intros ->. reflexivity. Qed.

Lemma append_nil (b : string) : "" +:+ b = b.
Proof. reflexivity. Qed.

Lemma append_cons x (a b : string) : String x a +:+ b = String x (a +:+ b).
Proof. reflexivity. Qed.

Lemma append_assoc (a b c : string) : (a +:+ b) +:+ c = a +:+ (b +:+ c).
Proof.
  induction a as [|x a IH]; [reflexivity|].
  rewrite !append_cons, IH. reflexivity.
Qed.

(** ** Whitespace normalization

    [normalizeWhitespace] is idempotent; [safeName] is idempotent
    exactly on the values that do not end with white space, which
    excludes a value cut right after a space. *)

Section Normalization.

Local Abbreviation ws := JS.isWhiteSpace.
Local Abbreviation collapse := (JS.replaceRunsFrom JS.isWhiteSpace " ").

Lemma dropWhile_startsClean s :
  JS.dropWhile ws s = "" \/ startsClean (JS.dropWhile ws s) = true.
Proof.
  induction s as [|c s IH]; [left; reflexivity|].
  simpl. destruct (ws c) eqn:E; [exact IH|].
  right. simpl. rewrite E. reflexivity.
Qed.

Lemma dropWhileEnd_endsClean s : endsClean (JS.dropWhileEnd ws s) = true.
Proof.
  induction s as [|c s IH]; [reflexivity|].
  simpl. destruct (JS.dropWhileEnd ws s) as [|d r] eqn:E.
  - simpl. destruct (ws c) eqn:Ec; simpl; [reflexivity|].
    rewrite Ec. reflexivity.
  - simpl. rewrite andb_false_r. exact IH.
Qed.

Lemma dropWhileEnd_head c s :
  ws c = false ->
  JS.dropWhileEnd ws (String c s) = String c (JS.dropWhileEnd ws s).
Proof. intros E. simpl. rewrite E. reflexivity. Qed.

(** The trimmed string is empty, or starts and ends with characters
    that are not white space. *)
Lemma trim_clean s :
  JS.trim s = ""
  \/ (startsClean (JS.trim s) = true /\ endsClean (JS.trim s) = true).
Proof.
  unfold JS.trim, JS.stripEnds.
  destruct (dropWhile_startsClean s) as [E|E].
  - left. rewrite E. reflexivity.
  - right. split; [|apply dropWhileEnd_endsClean].
    destruct (JS.dropWhile ws s) as [|c r]; [discriminate E|].
    simpl in E. apply negb_true_iff in E.
    rewrite (dropWhileEnd_head _ _ E). simpl. rewrite E. reflexivity.
Qed.

(** Collapsing a string that ends cleanly gives single-spaced text;
    inside a run, the output starts with a character that is not white
    space. *)
Lemma collapse_singleSpaced s :
  endsClean s = true ->
  singleSpaced (collapse false s) = true
  /\ (s ≠ "" ->
      startsClean (collapse true s) = true
      /\ singleSpaced (collapse true s) = true).
Proof.
  induction s as [|c s IH]; intros Hend.
  - split; [reflexivity | congruence].
  - assert (Hs : s = "" /\ ws c = false \/ s ≠ "" /\ endsClean s = true).
    { destruct s; [left | right]; simpl in Hend.
      - split; [reflexivity | apply negb_true_iff, Hend].
      - split; [discriminate | exact Hend]. }
    destruct Hs as [[-> Hc]|[Hne Hs]].
    + simpl. rewrite Hc. simpl. rewrite Hc. auto.
    + destruct (IH Hs) as [IH1 IH2]. destruct (IH2 Hne) as [IH3 IH4].
      simpl. destruct (ws c) eqn:Hc.
      * split; [|intros _; split; assumption].
        rewrite append_cons, append_nil. simpl.
        rewrite IH3, IH4. reflexivity.
      * split; [|intros _; split]; simpl; rewrite Hc; auto.
Qed.

Lemma collapse_startsClean s :
  startsClean s = true -> startsClean (collapse false s) = true.
Proof.
  destruct s as [|c s]; [discriminate|].
  simpl. intros E. apply negb_true_iff in E. rewrite E. simpl.
  rewrite E. reflexivity.
Qed.

Lemma normalizeWhitespace_isNormalized s :
  isNormalized (normalizeWhitespace s) = true.
Proof.
  unfold normalizeWhitespace, JS.replaceRuns.
  destruct (trim_clean s) as [E|[Hs He]].
  - rewrite E. reflexivity.
  - pose proof (collapse_startsClean _ Hs) as H1.
    pose proof (proj1 (collapse_singleSpaced _ He)) as H2.
    unfold isNormalized. destruct (collapse false (JS.trim s));
      [reflexivity|]. rewrite H1, H2. reflexivity.
Qed.

Lemma singleSpaced_dropWhileEnd s :
  singleSpaced s = true -> JS.dropWhileEnd ws s = s.
Proof.
  induction s as [|c s IH]; [reflexivity|].
  simpl. destruct (ws c) eqn:Hc.
  - intros H. apply andb_true_iff in H as [H H2].
    apply andb_true_iff in H as [_ H1].
    rewrite (IH H2). destruct s; [discriminate H1 | reflexivity].
  - intros H. rewrite (IH H). reflexivity.
Qed.

Lemma singleSpaced_collapse s b :
  singleSpaced s = true ->
  (b = true -> s = "" \/ startsClean s = true) ->
  collapse b s = s.
Proof.
  revert b. induction s as [|c s IH]; intros b H Hb; [reflexivity|].
  simpl in *. destruct (ws c) eqn:Hc.
  - apply andb_true_iff in H as [H H2].
    apply andb_true_iff in H as [Hsp H1].
    apply bool_decide_eq_true_1 in Hsp.
    destruct b.
    + destruct (Hb eq_refl) as [E|E]; [discriminate E|].
      apply negb_true_iff in E. congruence.
    + rewrite append_cons, append_nil, (IH true H2), Hsp; auto.
  - rewrite (IH false H); [reflexivity | discriminate].
Qed.

(** A normalized string is a fixed point of [normalizeWhitespace]. *)
Lemma isNormalized_fixed s :
  isNormalized s = true -> normalizeWhitespace s = s.
Proof.
  destruct s as [|c s]; [reflexivity|].
  unfold isNormalized. intros H. apply andb_true_iff in H as [H1 H2].
  unfold normalizeWhitespace, JS.replaceRuns, JS.trim, JS.stripEnds.
  assert (E : JS.dropWhile ws (String c s) = String c s).
  { simpl in H1. apply negb_true_iff in H1. simpl. rewrite H1. reflexivity. }
  rewrite E, (singleSpaced_dropWhileEnd _ H2).
  apply singleSpaced_collapse; [exact H2 | discriminate].
Qed.

Lemma normalizeWhitespace_idempotent s :
  normalizeWhitespace (normalizeWhitespace s) = normalizeWhitespace s.
Proof. apply isNormalized_fixed, normalizeWhitespace_isNormalized. Qed.

Lemma singleSpaced_endsClean s : singleSpaced s = true -> endsClean s = true.
Proof.
  induction s as [|c s IH]; [reflexivity|].
  simpl. destruct (ws c) eqn:Hc.
  - intros H. apply andb_true_iff in H as [H H2].
    apply andb_true_iff in H as [_ H1].
    destruct s; [discriminate H1 | exact (IH H2)].
  - intros H. destruct s; [reflexivity | exact (IH H)].
Qed.

Lemma slice0_short n s : String.length s <= n -> JS.slice0 n s = s.
Proof.
  unfold JS.slice0. revert n.
  induction s as [|c s IH]; intros [|n] H; simpl in *;
    try reflexivity; [lia|].
  rewrite IH by lia. reflexivity.
Qed.

Lemma slice0_length n s : String.length (JS.slice0 n s) <= n.
Proof.
  unfold JS.slice0. revert n.
  induction s as [|c s IH]; intros [|n]; simpl; try lia.
  specialize (IH n). lia.
Qed.

Lemma slice0_idempotent n s : JS.slice0 n (JS.slice0 n s) = JS.slice0 n s.
Proof. apply slice0_short, slice0_length. Qed.

(** A prefix of single-spaced text that ends cleanly is single-spaced. *)
Lemma slice0_singleSpaced n s :
  singleSpaced s = true -> endsClean (JS.slice0 n s) = true ->
  singleSpaced (JS.slice0 n s) = true.
Proof.
  unfold JS.slice0. revert n.
  induction s as [|c s IH]; intros [|n] H He; try reflexivity.
  change (substring 0 (S n) (String c s))
    with (String c (substring 0 n s)) in *.
  assert (He' : substring 0 n s ≠ "" -> endsClean (substring 0 n s) = true).
  { intros Hne. simpl in He. destruct (substring 0 n s); congruence. }
  simpl in H. cbn [singleSpaced]. destruct (ws c) eqn:Hc.
  - apply andb_true_iff in H as [H H2].
    apply andb_true_iff in H as [Hsp H1].
    destruct s as [|d s]; [discriminate H1|].
    destruct n as [|n].
    + simpl in He. rewrite Hc in He. discriminate He.
    + rewrite Hsp. rewrite (IH (S n) H2) by (apply He'; discriminate).
      simpl in *. rewrite H1. reflexivity.
  - destruct (substring 0 n s) eqn:E; [reflexivity|].
    rewrite <- E. apply (IH n H). rewrite E. apply He'. discriminate.
Qed.

Lemma slice0_isNormalized n s :
  isNormalized s = true -> endsClean (JS.slice0 n s) = true ->
  isNormalized (JS.slice0 n s) = true.
Proof.
  destruct s as [|c s]; [destruct n; reflexivity|].
  destruct n as [|n]; [reflexivity|].
  unfold isNormalized. intros H He.
  apply andb_true_iff in H as [H1 H2].
  pose proof (slice0_singleSpaced (S n) _ H2 He) as H3.
  unfold JS.slice0 in *.
  change (substring 0 (S n) (String c s))
    with (String c (substring 0 n s)) in *.
  rewrite H3. simpl in *. rewrite H1. reflexivity.
Qed.

(** [safeName] returns its argument when that is a value of [safeName]
    that does not end with white space. *)
Lemma safeName_idempotent_clean s v :
  safeName (Some s) = Some v -> endsClean v = true ->
  safeName (Some v) = Some v.
Proof.
  rewrite safeName_Some.
  destruct (JS.nonEmpty (normalizeWhitespace s)) eqn:Hne; [|discriminate].
  intros [= <-] He. unfold displayForm in *.
  pose proof (slice0_isNormalized 80 _
                (normalizeWhitespace_isNormalized s) He) as Hn.
  rewrite safeName_Some. unfold displayForm.
  rewrite (isNormalized_fixed _ Hn), slice0_idempotent.
  rewrite (slice0_nonEmpty 79 _ Hne). reflexivity.
Qed.

(** In particular when nothing is cut. *)
Lemma safeName_idempotent_short s v :
  safeName (Some s) = Some v ->
  String.length (normalizeWhitespace s) <= 80 ->
  safeName (Some v) = Some v.
Proof.
  intros Hv Hlen. apply (safeName_idempotent_clean s v Hv).
  rewrite safeName_Some in Hv.
  destruct (JS.nonEmpty (normalizeWhitespace s)); [|discriminate Hv].
  injection Hv as <-. unfold displayForm. rewrite (slice0_short _ _ Hlen).
  pose proof (normalizeWhitespace_isNormalized s) as Hn.
  unfold isNormalized in Hn.
  destruct (normalizeWhitespace s); [reflexivity|].
  apply andb_true_iff in Hn as [_ Hn]. apply singleSpaced_endsClean, Hn.
Qed.

End Normalization.

(** ** Locator hints *)

(** [buildLocators] as one filtered concatenation. *)
Lemma buildLocators_unfold el :
  buildLocators el =
  List.filter keepLocator
    ((if JS.truthy (ReconElement.testId el)
      then [ByTestId (ReconElement.testId el)] else [])
     ++ (if JS.truthy (ReconElement.role el)
         then [ByRole (default "" (ReconElement.role el))
                 (safeName (ReconElement.accessibleName el))] else [])
     ++ (if JS.truthy (ReconElement.labelText el)
         then [ByLabel (safeName (ReconElement.labelText el))] else [])
     ++ (if JS.truthy (ReconElement.placeholder el)
         then [ByPlaceholder (ReconElement.placeholder el)] else [])
     ++ (if JS.truthy (ReconElement.css el)
         then [ByCss (ReconElement.css el)] else [])
     ++ (if JS.truthy (ReconElement.xpath el)
         then [ByXpath (ReconElement.xpath el)] else [])).
Proof.
  unfold buildLocators, pushIf.
  destruct (JS.truthy (ReconElement.testId el)),
    (JS.truthy (ReconElement.role el)),
    (JS.truthy (ReconElement.labelText el)),
    (JS.truthy (ReconElement.placeholder el)),
    (JS.truthy (ReconElement.css el)),
    (JS.truthy (ReconElement.xpath el)); reflexivity.
Qed.




(** ** Display names *)

Lemma or_assoc a b c : (a ||| b) ||| c = a ||| (b ||| c).
Proof.
  unfold JS.or. destruct (JS.truthy a) eqn:Ea; [rewrite Ea|]; reflexivity.
Qed.

(** One step of the preference chain of [buildName]. *)
Lemma or_safeName v rest :
  safeName v ||| rest = if presentName v then displayForm <$> v else rest.
Proof.
  rewrite safeName_present.
  destruct (presentName v) eqn:E.
  - apply or_truthy.
    destruct v as [s|]; [|discriminate E].
    simpl in *. apply (slice0_nonEmpty 79), E.
  - apply or_falsy. reflexivity.
Qed.

Lemma firstPresentName_cons v rest :
  displayForm <$> firstPresentName (v :: rest) =
  if presentName v then displayForm <$> v
  else displayForm <$> firstPresentName rest.
Proof. simpl. destruct (presentName v); reflexivity. Qed.

(** [buildName] returns the display form of the first present signal. *)
Lemma buildName_displayForm el :
  buildName el = displayForm <$> firstPresentName (nameSignals el).
Proof.
  unfold buildName, nameSignals.
  rewrite !or_assoc, !or_safeName, !firstPresentName_cons.
  rewrite safeName_present. simpl.
  destruct (presentName (ReconElement.text el)); reflexivity.
Qed.


(** [safeName] is the identity on a name that is already normalized and
    short: the value cut at a white-space boundary is not of that kind. *)
Lemma safeName_cut_at_space :
  safeName (Some Sample.longName)
  = Some (JS.slice0 79 Sample.longName +:+ " ").
Proof. vm_compute. reflexivity. Qed.

(** C10, at the failing input: the name of 79 letters, a space and one
    more letter is normalized to itself and cut after the space; applying
    [safeName] to that value removes the space, so the second
    application does not return the value of the first. *)
Theorem safeName_twice_differs :
  exists v,
    safeName (Some Sample.longName) = Some v
    /\ safeName (Some v) = Some (JS.slice0 79 Sample.longName)
    /\ safeName (Some v) ≠ Some v.
Proof.
  exists (JS.slice0 79 Sample.longName +:+ " ").
  split; [exact safeName_cut_at_space|].
  split; [vm_compute; reflexivity|].
  intros H. apply (f_equal (fun o => String.length (default "" o))) in H.
  vm_compute in H. discriminate H.
Qed.

(** ** Disabled flags *)

(** The model flags are those of the report element. *)
Lemma elementModel_flags el i :
  ElementModel.flags (elementModel el i) =
  {| Flags.disabled := ReconElement.disabled el;
     Flags.ariaDisabled := ReconElement.ariaDisabled el |}.
Proof. reflexivity. Qed.

(** The raw element holds the flags computed by [isDisabled]. *)
Lemma rawElement_flags document e :
  (RawEl.disabled (rawElement document e),
   RawEl.ariaDisabled (rawElement document e))
  = (Some (fst (isDisabled e)), Some (snd (isDisabled e))).
Proof. unfold rawElement. destruct (isDisabled e). reflexivity. Qed.

(** No element of a scan report records a flag. *)
Lemma scanUrl_records_no_flag Number url now document :
  Forall
    (fun el => ReconElement.disabled el = None
               /\ ReconElement.ariaDisabled el = None)
    (ReconReport.elements (scanUrl Number url now document)).
Proof.
  unfold scanUrl. cbn [ReconReport.elements].
  induction (evaluate Number document) as [|r rs IH]; simpl;
    constructor; auto.
Qed.

(** C8, at the failing input: on a page whose one candidate is a button
    disabled natively and through ARIA, [isDisabled] computes both flags
    and the raw element holds them, but the report element records
    neither, and the model built from the report has both flags
    absent. *)
Theorem scan_drops_disabled_flags :
  let report :=
    scanUrl Sample.toNumber "https://www.example.com/"
      "2026-01-18T00:00:00.000Z" Sample.page in
  isDisabled Sample.disabledButton = (true, true)
  /\ (RawEl.disabled <$> evaluate Sample.toNumber Sample.page,
      RawEl.ariaDisabled <$> evaluate Sample.toNumber Sample.page)
     = ([Some true], [Some true])
  /\ ReconElement.tagName <$> ReconReport.elements report = ["button"]
  /\ ReconElement.disabled <$> ReconReport.elements report = [None]
  /\ ReconElement.ariaDisabled <$> ReconReport.elements report = [None]
  /\ exists model,
       buildPageModel Sample.parseUrl report None = Normal model
       /\ ElementModel.flags <$> PageModel.elements model
          = [ {| Flags.disabled := None; Flags.ariaDisabled := None |} ].
Proof.
  repeat split; try (vm_compute; reflexivity).
  eexists. split; vm_compute; reflexivity.
Qed.

(** ** Candidates *)

(** The role set of the in-page function is the one of [normalizeType]. *)
Lemma interactiveRoles_same : interactiveRoles = INTERACTIVE_ROLES.
Proof. reflexivity. Qed.

(** A [div] without role, tabindex or click handler is not part of the
    report. *)
Example plain_div_is_excluded :
  isCandidate Sample.toNumber Sample.plainDiv = false
  /\ keepContainer Sample.plainDiv = false
  /\ evaluate Sample.toNumber
       {| Dom.allElements := [Sample.plainDiv];
          Dom.labelFor := fun _ => None |} = [].
Proof. repeat split; vm_compute; reflexivity. Qed.

(** ** Type normalization *)

(** A string different from each member of a literal list is not in it. *)
Ltac not_in_literals :=
  let Hin := fresh "Hin" in
  intros Hin;
  repeat (apply elem_of_cons in Hin as [Hin|Hin]; [congruence|]);
  apply elem_of_nil in Hin; exact Hin.

Lemma strEq_refl s : strEq s s = true.
Proof. unfold strEq. apply bool_decide_eq_true_2. reflexivity. Qed.

Lemma strEq_ne s lit : s ≠ lit -> strEq s lit = false.
Proof. unfold strEq. apply bool_decide_eq_false_2. Qed.

(** The three comparisons of the input branch against the button
    types. *)
Lemma button_type_tests typeAttr :
  let inputType := JS.toLowerCase <$> typeAttr in
  strictEq inputType "button" || strictEq inputType "submit"
  || strictEq inputType "reset"
  = isButtonType typeAttr.
Proof.
  destruct typeAttr as [t|]; [|reflexivity].
  simpl. unfold strictEq, isButtonType.
  generalize (JS.toLowerCase t). intros lt.
  destruct (decide (lt = "button")) as [->|H1]; [reflexivity|].
  destruct (decide (lt = "submit")) as [->|H2]; [reflexivity|].
  destruct (decide (lt = "reset")) as [->|H3]; [reflexivity|].
  rewrite !bool_decide_eq_false_2;
    [reflexivity | not_in_literals | congruence..].
Qed.

(** A role that is absent, empty or outside the interactive set fails
    the first test of [normalizeType]. *)
Lemma not_interactive role :
  (forall r, role = Some r -> JS.toLowerCase r ∉ INTERACTIVE_ROLES) ->
  isInteractiveRole (JS.toLowerCase <$> role) = false.
Proof.
  intros H. destruct role as [r|]; [|reflexivity].
  unfold isInteractiveRole, has. simpl.
  rewrite (bool_decide_eq_false_2 _ (H r eq_refl)).
  apply andb_false_r.
Qed.

(** C7, as stated, fails: the role is lower-cased before it is looked up
    in the interactive-role set, so a role written in capitals, which is
    not a member of the set, still decides the type. An [input] of type
    text with the role BUTTON is a button, not an input. *)
Lemma normalizeType_capital_role_counterexample :
  ("BUTTON" ∉ INTERACTIVE_ROLES)
  /\ isButtonType (RawEl.typeAttr Fixture.capitalRoleInput) = false
  /\ normalizeType Fixture.capitalRoleInput = T_button
  /\ ~ (forall raw,
          (forall r, RawEl.role raw = Some r -> r ∉ INTERACTIVE_ROLES) ->
          RawEl.tag raw = "input" ->
          normalizeType raw =
            if isButtonType (RawEl.typeAttr raw) then T_button
            else T_input).
Proof.
  assert (N : "BUTTON" ∉ INTERACTIVE_ROLES).
  { intros Hin. apply (bool_decide_pack _) in Hin.
    vm_compute in Hin. exact Hin. }
  assert (E : normalizeType Fixture.capitalRoleInput = T_button)
    by (vm_compute; reflexivity).
  split; [exact N|]. split; [vm_compute; reflexivity|].
  split; [exact E|].
  intros H.
  assert (E' : normalizeType Fixture.capitalRoleInput = T_input).
  { apply (H Fixture.capitalRoleInput); [|reflexivity].
    intros r [= <-]. exact N. }
  rewrite E in E'. discriminate E'.
Qed.

(** C7 (amended): for a raw element whose role is absent or, once
    lower-cased, not in the interactive-role set, and whose tag is
    input, [normalizeType] returns button when the type attribute is
    (case-insensitively) button, submit or reset, and input
    otherwise. *)
Theorem normalizeType_input raw :
  (forall r, RawEl.role raw = Some r ->
             JS.toLowerCase r ∉ INTERACTIVE_ROLES) ->
  JS.toLowerCase (RawEl.tag raw) = "input" ->
  normalizeType raw =
    if isButtonType (RawEl.typeAttr raw) then T_button else T_input.
Proof.
  intros Hrole Htag. unfold normalizeType.
  rewrite (not_interactive _ Hrole), Htag.
  rewrite !(strEq_ne "input") by discriminate.
  rewrite strEq_refl. cbn [andb].
  rewrite button_type_tests. reflexivity.
Qed.

Lemma normalizeType_input_witness :
  normalizeType
    (RawEl.mk "input" None (Some "Submit") (Some "Go") None None None None
       None None (Some false) (Some false) None None (Some "Go")
       (Some "input") (Some "/html[1]/body[1]/input[1]"))
  = T_button.
Proof.
  apply (normalizeType_input
    (RawEl.mk "input" None (Some "Submit") (Some "Go") None None None None
       None None (Some false) (Some false) None None (Some "Go")
       (Some "input") (Some "/html[1]/body[1]/input[1]"))).
  - intros r H. discriminate H.
  - reflexivity.
Defined.

(** The earlier revision has no input refinement: it answers input for
    every input tag outside the role branch. *)
Lemma Earlier_normalizeType_input raw :
  (forall r, RawEl.role raw = Some r ->
             JS.toLowerCase r ∉ INTERACTIVE_ROLES) ->
  JS.toLowerCase (RawEl.tag raw) = "input" ->
  Earlier.normalizeType raw = T_input.
Proof.
  intros Hrole Htag. unfold Earlier.normalizeType.
  rewrite (not_interactive _ Hrole), Htag.
  rewrite !(strEq_ne "input") by discriminate.
  rewrite strEq_refl. reflexivity.
Qed.

(** The two revisions agree except on input buttons. *)
Lemma Earlier_normalizeType_agrees raw :
  Earlier.normalizeType raw ≠ normalizeType raw ->
  normalizeType raw = T_button /\ Earlier.normalizeType raw = T_input
  /\ JS.toLowerCase (RawEl.tag raw) = "input"
  /\ isButtonType (RawEl.typeAttr raw) = true.
Proof.
  unfold Earlier.normalizeType, normalizeType.
  destruct (isInteractiveRole _); [congruence|].
  destruct (strEq _ "button"); [congruence|].
  destruct (strEq _ "a" && _); [congruence|].
  destruct (strEq _ "select"); [congruence|].
  destruct (strEq _ "textarea"); [congruence|].
  destruct (strEq _ "input") eqn:Htag; [|congruence].
  apply bool_decide_eq_true_1 in Htag.
  rewrite button_type_tests.
  destruct (isButtonType _); [|congruence].
  intros _. repeat split. exact Htag.
Qed.

(** ** Accessible names *)





(** The earlier revision does not look at the value attribute: for the
    same node it answers with alt. *)
Lemma Earlier_accessibleName_skips_value :
  Earlier.accessibleName Sample.page Sample.submitInput = Some "Send".
Proof. vm_compute. reflexivity. Qed.

(** ** Domain *)

Lemma substring_all s : substring 0 (String.length s) s = s.
Proof. induction s as [|c s IH]; simpl; [|rewrite IH]; reflexivity. Qed.

(** The anchored replacement of [domainFromUrl] removes one leading
    [www.] and nothing else. *)
Lemma stripPrefix_www h : JS.stripPrefix "www." h = withoutLeadingWww h.
Proof.
  unfold JS.stripPrefix.
  destruct h as [|c1 h]; [reflexivity|].
  destruct (ascii_dec c1 "w") as [->|N1];
    [|destruct c1 as [[] [] [] [] [] [] [] []];
      solve [reflexivity | congruence]].
  destruct h as [|c2 h]; [reflexivity|].
  destruct (ascii_dec c2 "w") as [->|N2];
    [|destruct c2 as [[] [] [] [] [] [] [] []];
      solve [reflexivity | congruence]].
  destruct h as [|c3 h]; [reflexivity|].
  destruct (ascii_dec c3 "w") as [->|N3];
    [|destruct c3 as [[] [] [] [] [] [] [] []];
      solve [reflexivity | congruence]].
  destruct h as [|c4 h]; [reflexivity|].
  destruct (ascii_dec c4 ".") as [->|N4];
    [|destruct c4 as [[] [] [] [] [] [] [] []];
      solve [reflexivity | congruence]].
  replace (String.prefix "www." (String "w" (String "w" (String "w"
             (String "." h))))) with true by (destruct h; reflexivity).
  cbn [String.length Nat.sub substring].
  rewrite Nat.sub_0_r. apply substring_all.
Qed.

Lemma domainFromUrl_parsed parse url u :
  parse url = Some u ->
  domainFromUrl parse url = Normal (withoutLeadingWww (URL.hostname u)).
Proof.
  intros H. unfold domainFromUrl, newURL. rewrite H. simpl.
  rewrite stripPrefix_www. reflexivity.
Qed.

Lemma domainFromUrl_malformed parse url :
  parse url = None ->
  domainFromUrl parse url = Throw (TypeError "Invalid URL").
Proof. intros H. unfold domainFromUrl, newURL. rewrite H. reflexivity. Qed.

(** The model of a report whose URL parses. *)
Lemma buildPageModel_parsed parse report title u :
  parse (ReconReport.url report) = Some u ->
  buildPageModel parse report title =
  Normal
    {| PageModel.url := ReconReport.url report;
       PageModel.domain := withoutLeadingWww (URL.hostname u);
       PageModel.scannedAt := ReconReport.scannedAt report;
       PageModel.title := title;
       PageModel.elements :=
         mapIndexed elementModel (ReconReport.elements report) |}.
Proof.
  intros H. unfold buildPageModel.
  rewrite (domainFromUrl_parsed _ _ _ H). reflexivity.
Qed.

Lemma buildPageModel_malformed parse report title :
  parse (ReconReport.url report) = None ->
  buildPageModel parse report title = Throw (TypeError "Invalid URL").
Proof.
  intros H. unfold buildPageModel.
  rewrite (domainFromUrl_malformed _ _ H). reflexivity.
Qed.

(** C9: for a report whose URL is well formed, the domain of the model
    is the hostname of the URL without one literal leading [www.]; so a
    URL whose hostname is www.example.com (as for
    https://www.example.com/path) gives example.com, and one whose
    hostname is shop.example.co.uk gives shop.example.co.uk. *)
Theorem domain_is_hostname_without_www parse report title u :
  parse (ReconReport.url report) = Some u ->
  exists model,
    buildPageModel parse report title = Normal model
    /\ PageModel.domain model = withoutLeadingWww (URL.hostname u)
    /\ (URL.hostname u = "www.example.com" ->
        PageModel.domain model = "example.com")
    /\ (URL.hostname u = "shop.example.co.uk" ->
        PageModel.domain model = "shop.example.co.uk")
    /\ (URL.hostname u = "www.www.example.com" ->
        PageModel.domain model = "www.example.com").
Proof.
  intros H. eexists. split; [apply (buildPageModel_parsed _ _ _ _ H)|].
  simpl. repeat split; intros ->; reflexivity.
Qed.

Lemma domain_is_hostname_without_www_witness :
  (exists model,
      buildPageModel Sample.parseUrl
        (Sample.report "https://www.example.com/path" []) None
      = Normal model
      /\ PageModel.domain model = "example.com")
  /\ (exists model,
        buildPageModel Sample.parseUrl
          (Sample.report "https://shop.example.co.uk" []) None
        = Normal model
        /\ PageModel.domain model = "shop.example.co.uk").
Proof.
  split.
  - destruct (domain_is_hostname_without_www Sample.parseUrl
                (Sample.report "https://www.example.com/path" []) None
                (URL.mk "https:" "www.example.com"))
      as (model & Hm & _ & Hd & _).
    + vm_compute. reflexivity.
    + exists model. split; [exact Hm | apply Hd; reflexivity].
  - destruct (domain_is_hostname_without_www Sample.parseUrl
                (Sample.report "https://shop.example.co.uk" []) None
                (URL.mk "https:" "shop.example.co.uk"))
      as (model & Hm & _ & _ & Hd & _).
    + vm_compute. reflexivity.
    + exists model. split; [exact Hm | apply Hd; reflexivity].
Defined.

(** ** Failure and degradation *)

(** Every hint of [buildLocators] comes from a present, non-empty
    signal and has a usable value. *)
Lemma In_buildLocators h el :
  In h (buildLocators el) ->
  match h with
  | ByTestId v => v = ReconElement.testId el /\ JS.truthy v = true
  | ByRole r n =>
      ReconElement.role el = Some r /\ r ≠ ""
      /\ n = safeName (ReconElement.accessibleName el)
  | ByLabel v =>
      JS.truthy (ReconElement.labelText el) = true
      /\ v = safeName (ReconElement.labelText el) /\ JS.truthy v = true
  | ByPlaceholder v => v = ReconElement.placeholder el /\ JS.truthy v = true
  | ByCss v => v = ReconElement.css el /\ JS.truthy v = true
  | ByXpath v => v = ReconElement.xpath el /\ JS.truthy v = true
  end.
Proof.
  rewrite buildLocators_unfold, filter_In, !in_app_iff.
  intros [Hin Hkeep].
  repeat destruct Hin as [Hin|Hin];
    match type of Hin with
    | In _ (if JS.truthy ?v then _ else _) =>
        destruct (JS.truthy v) eqn:E; [|destruct Hin];
        destruct Hin as [<-|[]]
    end; simpl in Hkeep; auto.
  apply truthy_inv in E as (r & E & Hr). rewrite E. auto.
Qed.

(** A strategy appears among the hints only if its signal is present. *)
Lemma strategy_needs_signal el s :
  In s (strategy <$> buildLocators el) ->
  JS.truthy
    match s with
    | S_testId => ReconElement.testId el
    | S_role => ReconElement.role el
    | S_label => ReconElement.labelText el
    | S_placeholder => ReconElement.placeholder el
    | S_css => ReconElement.css el
    | S_xpath => ReconElement.xpath el
    end = true.
Proof.
  intros Hin. apply in_map_iff in Hin as (h & <- & Hin).
  apply In_buildLocators in Hin.
  destruct h; simpl; try (destruct Hin as [-> ?]; assumption).
  - destruct Hin as (-> & Hr & _). apply truthy_Some_nonempty, Hr.
  - destruct Hin as (? & _). assumption.
Qed.

(** C4: [buildPageModel] throws exactly when the URL of the report is
    malformed, and then returns no model; for a well-formed URL it
    returns the complete model, one element per report element, and in
    each element a missing optional property gives an absent model
    property or a missing hint, never an error. *)
Theorem buildPageModel_fails_only_on_malformed_url parse report title :
  ((exists e, buildPageModel parse report title = Throw e)
   <-> parse (ReconReport.url report) = None)
  /\ (parse (ReconReport.url report) = None ->
      forall model, buildPageModel parse report title ≠ Normal model)
  /\ (forall u,
        parse (ReconReport.url report) = Some u ->
        exists model,
          buildPageModel parse report title = Normal model
          /\ PageModel.url model = ReconReport.url report
          /\ PageModel.scannedAt model = ReconReport.scannedAt report
          /\ PageModel.title model = title
          /\ length (PageModel.elements model)
             = length (ReconReport.elements report)
          /\ forall i el,
               ReconReport.elements report !! i = Some el ->
               PageModel.elements model !! i = Some (elementModel el i))
  /\ (forall el i,
        let m := elementModel el i in
        (firstPresentName (nameSignals el) = None ->
         ElementModel.name m = None)
        /\ (ReconElement.role el = None -> ElementModel.role m = None)
        /\ (ReconElement.href el = None -> ElementModel.href m = None)
        /\ (ReconElement.disabled el = None ->
            Flags.disabled (ElementModel.flags m) = None)
        /\ (ReconElement.ariaDisabled el = None ->
            Flags.ariaDisabled (ElementModel.flags m) = None)
        /\ (ReconElement.testId el = None ->
            ~ In S_testId (strategy <$> ElementModel.locators m))
        /\ (ReconElement.role el = None ->
            ~ In S_role (strategy <$> ElementModel.locators m))
        /\ (ReconElement.labelText el = None ->
            ~ In S_label (strategy <$> ElementModel.locators m))
        /\ (ReconElement.placeholder el = None ->
            ~ In S_placeholder (strategy <$> ElementModel.locators m))
        /\ (ReconElement.css el = None ->
            ~ In S_css (strategy <$> ElementModel.locators m))
        /\ (ReconElement.xpath el = None ->
            ~ In S_xpath (strategy <$> ElementModel.locators m))).
Proof.
  split; [|split; [|split]].
  - split.
    + intros [e He].
      destruct (parse (ReconReport.url report)) as [u|] eqn:E;
        [|reflexivity].
      rewrite (buildPageModel_parsed _ _ _ _ E) in He. discriminate He.
    + intros E. eexists. apply buildPageModel_malformed, E.
  - intros E model. rewrite (buildPageModel_malformed _ _ _ E). discriminate.
  - intros u E. eexists. split; [apply (buildPageModel_parsed _ _ _ _ E)|].
    simpl. repeat split.
    + unfold mapIndexed. apply length_imap.
    + intros i el Hi. unfold mapIndexed.
      rewrite list_lookup_imap, Hi. reflexivity.
  - intros el i m. subst m.
    pose proof (strategy_needs_signal el) as Hs.
    repeat split; try (intros H; exact H);
      try (intros H Hin; apply Hs in Hin; rewrite H in Hin;
           discriminate Hin).
    + intros H. change (buildName el = None).
      rewrite buildName_displayForm, H. reflexivity.
    + intros H. simpl. destruct (ReconElement.type el); auto.
Qed.

Lemma buildPageModel_fails_only_on_malformed_url_witness :
  buildPageModel Sample.parseUrl (Sample.report "not a url" [Sample.zip])
    None = Throw (TypeError "Invalid URL")
  /\ exists model,
       buildPageModel Sample.parseUrl
         (Sample.report "https://www.example.com" [Sample.bare T_other "div"])
         None = Normal model
       /\ length (PageModel.elements model) = 1.
Proof.
  split.
  - destruct (proj2 (proj1 (buildPageModel_fails_only_on_malformed_url
                Sample.parseUrl (Sample.report "not a url" [Sample.zip])
                None))) as [e He]; [reflexivity|].
    rewrite He. vm_compute in He. symmetry. exact He.
  - destruct (proj1 (proj2 (proj2 (buildPageModel_fails_only_on_malformed_url
                Sample.parseUrl
                (Sample.report "https://www.example.com"
                   [Sample.bare T_other "div"]) None)))
                (URL.mk "https:" "www.example.com"))
      as (model & Hm & _ & _ & _ & Hl & _).
    + vm_compute. reflexivity.
    + exists model. split; [exact Hm | exact Hl].
Defined.

(** ** Counts *)

Section Counts.

Implicit Types (counts acc : gmap string nat) (k : string).

Lemma sumOfCounts_empty : sumOfCounts ∅ = 0.
Proof. apply map_fold_empty. Qed.

Lemma sumOfCounts_insert_fresh counts k n :
  counts !! k = None ->
  sumOfCounts (<[k := n]> counts) = n + sumOfCounts counts.
Proof.
  intros H. unfold sumOfCounts.
  apply (map_fold_insert_L (fun _ v s => v + s)); [|exact H].
  intros. lia.
Qed.

Lemma sumOfCounts_present counts k n :
  counts !! k = Some n ->
  sumOfCounts counts = n + sumOfCounts (delete k counts).
Proof.
  intros H. unfold sumOfCounts.
  apply (map_fold_delete_L (fun _ v s => v + s)); [|exact H].
  intros. lia.
Qed.

(** Overwriting a key changes the sum by the difference of values. *)
Lemma sumOfCounts_insert counts k n :
  sumOfCounts (<[k := n]> counts) + default 0 (counts !! k)
  = n + sumOfCounts counts.
Proof.
  destruct (counts !! k) as [old|] eqn:E; simpl.
  - rewrite (sumOfCounts_present counts k old E).
    rewrite <- (insert_delete_eq counts k n).
    rewrite sumOfCounts_insert_fresh by apply lookup_delete_eq. lia.
  - rewrite sumOfCounts_insert_fresh by exact E. lia.
Qed.

Lemma sumOfCounts_countOne acc e :
  sumOfCounts (countOne acc e) = S (sumOfCounts acc).
Proof.
  unfold countOne.
  pose proof (sumOfCounts_insert acc
    (typeName (ReconElement.type e))
    (default 0 (acc !! typeName (ReconElement.type e)) + 1)).
  lia.
Qed.

Lemma sumOfCounts_ensureKey counts t :
  sumOfCounts (ensureKey counts t) = sumOfCounts counts.
Proof.
  unfold ensureKey.
  pose proof (sumOfCounts_insert counts (typeName t)
    (default 0 (counts !! typeName t))).
  lia.
Qed.

Lemma sumOfCounts_reduce elements acc :
  sumOfCounts (foldl countOne acc elements)
  = sumOfCounts acc + length elements.
Proof.
  revert acc. induction elements as [|e es IH]; intros acc; simpl.
  - lia.
  - rewrite IH, sumOfCounts_countOne. lia.
Qed.

Lemma sumOfCounts_ensure ts counts :
  sumOfCounts (foldl ensureKey counts ts) = sumOfCounts counts.
Proof.
  revert counts. induction ts as [|t ts IH]; intros counts; simpl.
  - reflexivity.
  - rewrite IH. apply sumOfCounts_ensureKey.
Qed.

Lemma typeName_inj t1 t2 : typeName t1 = typeName t2 -> t1 = t2.
Proof. destruct t1, t2; simpl; intros H; congruence. Qed.

(** The count of one type after the reduction. *)
Lemma reduce_lookup elements acc t :
  default 0 (foldl countOne acc elements !! typeName t)
  = default 0 (acc !! typeName t) + occurrences t elements.
Proof.
  revert acc. induction elements as [|e es IH]; intros acc.
  - simpl. unfold occurrences. simpl. lia.
  - cbn [foldl]. rewrite IH. unfold occurrences, countOne.
    cbn [List.filter]. case_bool_decide as Ht.
    + rewrite Ht, lookup_insert_eq. simpl. lia.
    + rewrite lookup_insert_ne; [lia|].
      intros Heq. apply Ht, typeName_inj, Heq.
Qed.

(** The keys of the reduction are names of semantic types. *)
Lemma reduce_keys elements acc k :
  is_Some (foldl countOne acc elements !! k) ->
  is_Some (acc !! k) \/ exists t, k = typeName t.
Proof.
  revert acc. induction elements as [|e es IH]; intros acc H.
  - left. exact H.
  - cbn [foldl] in H. apply IH in H as [H|H]; [|right; exact H].
    unfold countOne in H.
    destruct (decide (typeName (ReconElement.type e) = k)) as [<-|Hne].
    + right. eexists. reflexivity.
    + rewrite lookup_insert_ne in H by exact Hne. left. exact H.
Qed.

(** The zero-filling loop makes each listed key present and keeps
    every value. *)
Lemma ensure_lookup ts counts k :
  foldl ensureKey counts ts !! k =
  if bool_decide (k ∈ typeName <$> ts)
  then Some (default 0 (counts !! k)) else counts !! k.
Proof.
  revert counts. induction ts as [|t ts IH]; intros counts.
  - reflexivity.
  - cbn [foldl fmap list_fmap]. rewrite IH. unfold ensureKey.
    destruct (decide (typeName t = k)) as [<-|Hne].
    + rewrite lookup_insert_eq.
      rewrite (bool_decide_eq_true_2 (_ ∈ _ :: _)) by apply list_elem_of_here.
      simpl. destruct (bool_decide _); reflexivity.
    + rewrite lookup_insert_ne by exact Hne.
      assert (Hiff : k ∈ typeName t :: (typeName <$> ts)
                     <-> k ∈ typeName <$> ts).
      { rewrite elem_of_cons. split; [intros [->|H]|]; tauto. }
      rewrite (bool_decide_ext _ _ Hiff). reflexivity.
Qed.

Lemma typeName_listed t : typeName t ∈ typeName <$> allTypes.
Proof. destruct t; vm_compute; repeat constructor. Qed.

Lemma countsOf_lookup elements t :
  countsOf elements !! typeName t = Some (occurrences t elements).
Proof.
  unfold countsOf. rewrite ensure_lookup.
  rewrite (bool_decide_eq_true_2 _ (typeName_listed t)).
  rewrite reduce_lookup, lookup_empty. reflexivity.
Qed.

Lemma countsOf_keys elements k :
  is_Some (countsOf elements !! k) <-> exists t, k = typeName t.
Proof.
  split.
  - unfold countsOf. rewrite ensure_lookup. case_bool_decide as Hk.
    + intros _. apply list_elem_of_fmap in Hk as (t & -> & _). eauto.
    + intros H. apply reduce_keys in H as [H|H]; [|exact H].
      rewrite lookup_empty in H. destruct H as [? H]. discriminate H.
  - intros [t ->]. rewrite countsOf_lookup. eauto.
Qed.

Lemma countsOf_sum elements :
  sumOfCounts (countsOf elements) = length elements.
Proof.
  unfold countsOf.
  rewrite sumOfCounts_ensure, sumOfCounts_reduce, sumOfCounts_empty.
  reflexivity.
Qed.

End Counts.

(** C2: in the report of a scan, the values of [counts] sum to the
    number of elements; each of the six semantic types is a key of
    [counts], its value being the number of elements of that type (zero
    when there is none); and [counts] has no other key. *)
Theorem scanUrl_counts Number url now document :
  let report := scanUrl Number url now document in
  sumOfCounts (ReconReport.counts report)
  = length (ReconReport.elements report)
  /\ (forall t,
        ReconReport.counts report !! typeName t
        = Some (occurrences t (ReconReport.elements report)))
  /\ (forall t,
        occurrences t (ReconReport.elements report) = 0 ->
        ReconReport.counts report !! typeName t = Some 0)
  /\ dom (ReconReport.counts report)
     = {[ "button"; "link"; "input"; "select"; "textarea"; "other" ]}.
Proof.
  intros report. subst report. unfold scanUrl. cbn [ReconReport.counts
    ReconReport.elements].
  set (elements := map toReconElement _).
  split; [apply countsOf_sum|].
  split; [apply countsOf_lookup|].
  split; [intros t H; rewrite countsOf_lookup, H; reflexivity|].
  apply set_eq. intros k. rewrite elem_of_dom, countsOf_keys.
  rewrite !elem_of_union, !elem_of_singleton.
  split.
  - intros [[] ->]; simpl; tauto.
  - intros H.
    repeat destruct H as [H|H]; subst k;
      [exists T_button | exists T_link | exists T_input | exists T_select
      | exists T_textarea | exists T_other]; reflexivity.
Qed.

(** ** Stable identifiers *)

Lemma noHyphen_app_hyphen a b : noHyphen (a +:+ String "-" b) = false.
Proof.
  induction a as [|x a IH]; [reflexivity|].
  rewrite append_cons. cbn [noHyphen]. rewrite IH. apply andb_false_r.
Qed.

(** Two strings that end with a hyphen followed by hyphen-free text
    have the same text after their last hyphen. *)
Lemma after_last_hyphen a b d1 d2 :
  noHyphen d1 = true -> noHyphen d2 = true ->
  a +:+ String "-" d1 = b +:+ String "-" d2 -> d1 = d2.
Proof.
  intros H1 H2. revert b.
  induction a as [|x a IH]; intros [|y b] E;
    rewrite ?append_nil, ?append_cons in E.
  - congruence.
  - injection E as _ E. rewrite E, noHyphen_app_hyphen in H1. discriminate H1.
  - injection E as _ E. rewrite <- E, noHyphen_app_hyphen in H2.
    discriminate H2.
  - injection E as _ E. apply (IH b E).
Qed.

Lemma pretty_N_char_noHyphen x : JS.isHyphen (pretty_N_char x) = false.
Proof. unfold pretty_N_char. repeat case_match; reflexivity. Qed.

Lemma pretty_N_go_noHyphen x s :
  noHyphen s = true -> noHyphen (pretty_N_go x s) = true.
Proof.
  revert s. induction (N.lt_wf_0 x) as [x _ IH]. intros s Hs.
  destruct (decide (x = 0)%N) as [->|Hx].
  - rewrite pretty_N_go_0. exact Hs.
  - rewrite pretty_N_go_step by lia.
    apply IH; [apply N.div_lt; lia|].
    simpl. rewrite pretty_N_char_noHyphen, Hs. reflexivity.
Qed.

(** The decimal text of an index has no hyphen. *)
Lemma ofNat_noHyphen n : noHyphen (JS.ofNat n) = true.
Proof.
  unfold JS.ofNat, pretty, pretty_nat, pretty, pretty_N.
  case_decide; [reflexivity|].
  apply pretty_N_go_noHyphen. reflexivity.
Qed.

Lemma ofNat_inj i j : JS.ofNat i = JS.ofNat j -> i = j.
Proof. apply pretty_nat_inj. Qed.

(** Identifiers built with different indices differ, whatever the type
    and the slug. *)
Lemma idWithSlug_index el1 el2 slug1 slug2 i j :
  idWithSlug el1 slug1 i = idWithSlug el2 slug2 j -> i = j.
Proof.
  unfold idWithSlug. intros E.
  apply ofNat_inj.
  apply (after_last_hyphen
           (typeName (ReconElement.type el1) +:+ "-" +:+ slug1)
           (typeName (ReconElement.type el2) +:+ "-" +:+ slug2));
    try apply ofNat_noHyphen.
  rewrite !append_assoc. exact E.
Qed.

(** The base of the slug: the first available signal, or the literal
    with the index. *)
Lemma idBase_first_available el i :
  idBase el i
  = default ("element-" +:+ JS.ofNat i) (firstNonEmpty (slugSignals el)).
Proof.
  unfold idBase, slugSignals. rewrite !or_assoc. cbn [firstNonEmpty].
  repeat match goal with
  | |- context [?v ||| _] =>
      unfold JS.or at 1;
      destruct (JS.truthy v) eqn:E;
      [apply truthy_inv in E as (s & E & _); try rewrite E; reflexivity|];
      clear E
  end.
  reflexivity.
Qed.

Lemma or_unnamed slug :
  default "" (Some slug ||| Some "unnamed") = orUnnamed slug.
Proof. destruct slug; reflexivity. Qed.

(** The code and the amended wording give the same identifier. *)
Lemma stableElementId_specified el i :
  stableElementId el i = specifiedIdWithFallback el i.
Proof.
  unfold stableElementId, specifiedIdWithFallback, idWithSlug.
  rewrite or_unnamed, idBase_first_available. reflexivity.
Qed.

(** C5, as stated, fails for an element whose six signals are all
    unavailable (an empty tag name and nothing else): the code takes
    the literal [element-0] as base, not the empty slug. *)
Lemma specifiedId_counterexample :
  stableElementId (Sample.bare T_button "") 0 = "button-element-0-0"
  /\ specifiedId (Sample.bare T_button "") 0 = "button-unnamed-0"
  /\ stableElementId (Sample.bare T_button "") 0
     ≠ specifiedId (Sample.bare T_button "") 0.
Proof.
  assert (E1 : stableElementId (Sample.bare T_button "") 0
               = "button-element-0-0") by (vm_compute; reflexivity).
  assert (E2 : specifiedId (Sample.bare T_button "") 0 = "button-unnamed-0")
    by (vm_compute; reflexivity).
  split; [exact E1 | split; [exact E2|]].
  rewrite E1, E2. discriminate.
Qed.

(** C5 (amended): in the model of a report, the identifier of the i-th
    element is type, hyphen, slug, hyphen, i, where the slug is derived
    from the first available of test-id, DOM id, name attribute,
    aria-label, visible text and tag name, or from the literal
    [element-<i>] when none of them is available, by whitespace
    normalization, lowercasing, collapsing of non-alphanumeric runs to
    single hyphens, trimming of leading and trailing hyphens and capping
    at 50 characters, and is replaced by unnamed when empty; and the
    identifiers of one model are pairwise distinct. *)
Theorem stableElementId_formula_and_distinct parse report title model :
  buildPageModel parse report title = Normal model ->
  (forall i el,
      ReconReport.elements report !! i = Some el ->
      ElementModel.id <$> (PageModel.elements model !! i)
      = Some (specifiedIdWithFallback el i))
  /\ NoDup (ElementModel.id <$> PageModel.elements model).
Proof.
  intros Hm.
  destruct (parse (ReconReport.url report)) as [u|] eqn:E;
    [|rewrite (buildPageModel_malformed _ _ _ E) in Hm; discriminate Hm].
  rewrite (buildPageModel_parsed _ _ _ _ E) in Hm.
  injection Hm as <-. cbn [PageModel.elements]. unfold mapIndexed.
  split.
  - intros i el Hi. rewrite list_lookup_imap, Hi. simpl.
    rewrite stableElementId_specified. reflexivity.
  - apply NoDup_alt. intros i j x Hi Hj.
    rewrite list_lookup_fmap, list_lookup_imap in Hi, Hj.
    destruct (ReconReport.elements report !! i) as [eli|];
      [|discriminate Hi].
    destruct (ReconReport.elements report !! j) as [elj|];
      [|discriminate Hj].
    simpl in Hi, Hj. injection Hi as Hi. injection Hj as Hj.
    rewrite stableElementId_specified in Hi, Hj.
    unfold specifiedIdWithFallback in Hi, Hj.
    rewrite <- Hj in Hi. apply (idWithSlug_index _ _ _ _ _ _ Hi).
Qed.

Lemma stableElementId_formula_and_distinct_witness :
  exists model,
    buildPageModel Sample.parseUrl
      (Sample.report "https://www.example.com" [Sample.zip; Sample.zip])
      None = Normal model
    /\ ElementModel.id <$> PageModel.elements model
       = ["input-zip-0"; "input-zip-1"]
    /\ NoDup (ElementModel.id <$> PageModel.elements model).
Proof.
  eexists. split; [vm_compute; reflexivity|].
  split; [vm_compute; reflexivity|].
  refine (proj2 (stableElementId_formula_and_distinct Sample.parseUrl
    (Sample.report "https://www.example.com" [Sample.zip; Sample.zip])
    None _ _)).
  vm_compute. reflexivity.
Defined.

(** ** The unit tests of the builder, replayed

    The four cases of [tests/buildPageModel.spec.ts], with
    [Sample.parseUrl] for the URL class. *)

Example test_domain_without_www :
  PageModel.domain
    <$> match buildPageModel Sample.parseUrl
                (Sample.report "https://www.example.com" []) None with
        | Normal model => Some model
        | Throw _ => None
        end
  = Some "example.com".
Proof. vm_compute. reflexivity. Qed.

Example test_kinds :
  kindFromRecon
    <$> [ Sample.bare T_input "input"; Sample.bare T_button "button";
          Sample.bare T_link "a"; Sample.bare T_select "select";
          Sample.bare T_textarea "textarea"; Sample.bare T_other "div" ]
  = [K_textbox; K_button; K_link; K_select; K_textarea; K_other].
Proof. reflexivity. Qed.

Example test_locator_order :
  strategy <$> buildLocators Sample.zip = preferenceOrder.
Proof. vm_compute. reflexivity. Qed.

Example test_name_precedence :
  buildName
    {| ReconElement.type := T_button;
       ReconElement.tagName := "button";
       ReconElement.role := None;
       ReconElement.accessibleName := Some "Primary CTA";
       ReconElement.labelText := Some "Label Should Lose";
       ReconElement.testId := None;
       ReconElement.text := Some "Text Should Lose";
       ReconElement.id := Some "id-should-lose";
       ReconElement.name := None;
       ReconElement.href := None;
       ReconElement.placeholder := None;
       ReconElement.ariaLabel := Some "ARIA Should Lose";
       ReconElement.disabled := None;
       ReconElement.ariaDisabled := None;
       ReconElement.typeAttr := None;
       ReconElement.value := None;
       ReconElement.css := Some "button";
       ReconElement.xpath := None |}
  = Some "Primary CTA".
Proof. vm_compute. reflexivity. Qed.

(** * Further properties *)

(** ** Normalized names *)

Section NameShape.

Local Abbreviation ws := JS.isWhiteSpace.
Local Abbreviation collapse := (JS.replaceRunsFrom JS.isWhiteSpace " ").

Lemma dropWhile_empty s :
  JS.dropWhile ws s = "" <-> allChars ws s = true.
Proof.
  induction s as [|c s IH]; simpl; [tauto|].
  destruct (ws c); simpl; [exact IH|].
  split; discriminate.
Qed.

Lemma trim_empty s : JS.trim s = "" <-> allChars ws s = true.
Proof.
  rewrite <- dropWhile_empty. unfold JS.trim, JS.stripEnds.
  destruct (dropWhile_startsClean s) as [E|E].
  - rewrite E. simpl. tauto.
  - destruct (JS.dropWhile ws s) as [|c r]; [discriminate E|].
    simpl in E. apply negb_true_iff in E.
    rewrite (dropWhileEnd_head _ _ E). split; discriminate.
Qed.

Lemma collapse_empty s : collapse false s = "" <-> s = "".
Proof.
  destruct s as [|c s]; simpl; [tauto|].
  destruct (ws c); [rewrite append_cons|]; split; discriminate.
Qed.

Lemma normalizeWhitespace_empty s :
  normalizeWhitespace s = "" <-> allChars ws s = true.
Proof.
  unfold normalizeWhitespace, JS.replaceRuns.
  rewrite collapse_empty. apply trim_empty.
Qed.

Lemma length_dropWhile s :
  String.length (JS.dropWhile ws s) <= String.length s.
Proof.
  induction s as [|c s IH]; simpl; [lia|].
  destruct (ws c); simpl; lia.
Qed.

Lemma length_dropWhileEnd s :
  String.length (JS.dropWhileEnd ws s) <= String.length s.
Proof.
  induction s as [|c s IH]; simpl; [lia|].
  destruct (ws c && _); simpl; lia.
Qed.

Lemma length_collapse b s :
  String.length (collapse b s) <= String.length s.
Proof.
  revert b. induction s as [|c s IH]; intros b; simpl; [lia|].
  destruct (ws c).
  - destruct b; [specialize (IH true); lia|].
    rewrite append_cons, append_nil. simpl. specialize (IH true). lia.
  - simpl. specialize (IH false). lia.
Qed.

(** Normalization never lengthens a string. *)
Lemma length_normalizeWhitespace s :
  String.length (normalizeWhitespace s) <= String.length s.
Proof.
  unfold normalizeWhitespace, JS.replaceRuns, JS.trim, JS.stripEnds.
  pose proof (length_collapse false
                (JS.dropWhileEnd ws (JS.dropWhile ws s))).
  pose proof (length_dropWhileEnd (JS.dropWhile ws s)).
  pose proof (length_dropWhile s). lia.
Qed.

Lemma singleSpaced_plain s :
  singleSpaced s = true -> allChars plainOrSpace s = true.
Proof.
  induction s as [|c s IH]; [reflexivity|].
  simpl. unfold plainOrSpace at 1. destruct (ws c) eqn:Hc; simpl.
  - intros H. apply andb_true_iff in H as [H H2].
    apply andb_true_iff in H as [Hsp _].
    apply bool_decide_eq_true_1 in Hsp. subst c. exact (IH H2).
  - exact IH.
Qed.

Lemma slice0_allChars p n s :
  allChars p s = true -> allChars p (JS.slice0 n s) = true.
Proof.
  unfold JS.slice0. revert n.
  induction s as [|c s IH]; intros [|n] H; try reflexivity.
  simpl in *. apply andb_true_iff in H as [H1 H2].
  rewrite H1, (IH n H2). reflexivity.
Qed.

Lemma isNormalized_parts s :
  isNormalized s = true ->
  s = "" \/ (startsClean s = true /\ singleSpaced s = true).
Proof.
  destruct s; [left; reflexivity|]. unfold isNormalized.
  intros H. apply andb_true_iff in H. right. exact H.
Qed.

End NameShape.

(** X1: what [normalizeWhitespace] returns is in normal form (no white
    space at either end, every white-space character a single space
    between two other characters), is a fixed point of
    [normalizeWhitespace], and is not longer than the input. *)
Theorem normalizeWhitespace_normal_form s :
  isNormalized (normalizeWhitespace s) = true
  /\ normalizeWhitespace (normalizeWhitespace s) = normalizeWhitespace s
  /\ String.length (normalizeWhitespace s) <= String.length s.
Proof.
  split; [apply normalizeWhitespace_isNormalized|].
  split; [|apply length_normalizeWhitespace].
  apply isNormalized_fixed, normalizeWhitespace_isNormalized.
Qed.

(** X2: [safeName] returns nothing exactly for an absent string and for
    a string made of white space only (the empty string included). *)
Theorem safeName_absent_iff v :
  safeName v = None
  <-> v = None \/ exists s, v = Some s /\ allChars JS.isWhiteSpace s = true.
Proof.
  destruct v as [s|].
  - rewrite safeName_Some. split.
    + destruct (JS.nonEmpty (normalizeWhitespace s)) eqn:E; [discriminate|].
      intros _. right. exists s. split; [reflexivity|].
      apply normalizeWhitespace_empty.
      destruct (normalizeWhitespace s); [reflexivity | discriminate E].
    + intros [H|(s' & [= <-] & H)]; [discriminate H|].
      apply normalizeWhitespace_empty in H. rewrite H. reflexivity.
  - split; [left | ]; reflexivity.
Qed.

Lemma safeName_length v s : safeName v = Some s -> String.length s <= 80.
Proof.
  destruct v as [s0|]; [|discriminate]. rewrite safeName_Some.
  destruct (JS.nonEmpty _); [|discriminate].
  intros [= <-]. apply slice0_length.
Qed.

(** X3: a value of [safeName] is not empty, has at most 80 characters,
    does not start with white space, and its only white-space
    characters are plain spaces. *)
Theorem safeName_value_shape v s :
  safeName v = Some s ->
  s ≠ "" /\ String.length s <= 80
  /\ startsClean s = true /\ allChars plainOrSpace s = true.
Proof.
  destruct v as [s0|]; [|discriminate].
  rewrite safeName_Some.
  destruct (JS.nonEmpty (normalizeWhitespace s0)) eqn:E; [|discriminate].
  intros [= <-]. unfold displayForm.
  destruct (isNormalized_parts _ (normalizeWhitespace_isNormalized s0))
    as [H|[H1 H2]]; [rewrite H in E; discriminate E|].
  split; [apply nonEmpty_true, (slice0_nonEmpty 79), E|].
  split; [apply slice0_length|].
  split; [|apply slice0_allChars, singleSpaced_plain, H2].
  destruct (normalizeWhitespace s0); [discriminate E | exact H1].
Qed.

Lemma safeName_value_shape_witness :
  "Zip Code" ≠ "" /\ String.length "Zip Code" <= 80
  /\ startsClean "Zip Code" = true
  /\ allChars plainOrSpace "Zip Code" = true.
Proof.
  apply (safeName_value_shape (Some "  Zip   Code ") "Zip Code").
  vm_compute. reflexivity.
Defined.

(** X4: applied to one of its own values, [safeName] returns that value
    again exactly when the value does not end with white space; so it is
    idempotent whenever the cut at 80 does not fall right after a
    space. *)
Theorem safeName_fixed_point_iff s v :
  safeName (Some s) = Some v ->
  (safeName (Some v) = Some v <-> endsClean v = true).
Proof.
  intros Hv. split; [|apply (safeName_idempotent_clean s v Hv)].
  intros Hfix.
  pose proof (safeName_length _ _ Hv) as Hlen.
  rewrite safeName_Some in Hfix.
  destruct (JS.nonEmpty (normalizeWhitespace v)); [|discriminate Hfix].
  injection Hfix as Hfix. unfold displayForm in Hfix.
  rewrite slice0_short in Hfix
    by (pose proof (length_normalizeWhitespace v); lia).
  destruct (isNormalized_parts _ (normalizeWhitespace_isNormalized v))
    as [H|[_ H]]; rewrite Hfix in H.
  - rewrite H. reflexivity.
  - apply singleSpaced_endsClean, H.
Qed.

Lemma safeName_fixed_point_iff_witness :
  safeName (Some "Zip Code") = Some "Zip Code" <-> endsClean "Zip Code" = true.
Proof.
  apply (safeName_fixed_point_iff "  Zip   Code " "Zip Code").
  vm_compute. reflexivity.
Defined.

(** ** Locator hints of any element *)

Lemma filter_sublist {A} (f : A -> bool) (l : list A) :
  List.filter f l `sublist_of` l.
Proof.
  induction l as [|x l IH]; simpl; [constructor|].
  destruct (f x); constructor; exact IH.
Qed.

(** X5: whatever the element, the strategies of its hints are a
    subsequence of testId, role, label, placeholder, css, xpath: the
    preference order is kept, no strategy occurs twice, and there are at
    most six hints. *)
Theorem buildLocators_keeps_preference_order el :
  strategy <$> buildLocators el `sublist_of` preferenceOrder
  /\ NoDup (strategy <$> buildLocators el)
  /\ length (buildLocators el) <= 6.
Proof.
  assert (H : strategy <$> buildLocators el `sublist_of` preferenceOrder).
  { rewrite buildLocators_unfold.
    etransitivity; [apply fmap_sublist, filter_sublist|].
    destruct (JS.truthy (ReconElement.testId el)),
      (JS.truthy (ReconElement.role el)),
      (JS.truthy (ReconElement.labelText el)),
      (JS.truthy (ReconElement.placeholder el)),
      (JS.truthy (ReconElement.css el)),
      (JS.truthy (ReconElement.xpath el)); simpl;
      repeat constructor. }
  split; [exact H|]. split.
  - apply (sublist_NoDup _ preferenceOrder); [|exact H].
    unfold preferenceOrder. repeat constructor; not_in_literals.
  - apply sublist_length in H. rewrite length_fmap in H. exact H.
Qed.

Lemma truthy_safeName_present v :
  JS.truthy (safeName v) = presentName v.
Proof.
  rewrite safeName_present. destruct (presentName v) eqn:E; [|reflexivity].
  destruct v as [s|]; [|discriminate E].
  simpl in *. apply (slice0_nonEmpty 79), E.
Qed.

Lemma strategy_needs_usable el st :
  In st (strategy <$> buildLocators el) -> usable el st = true.
Proof.
  intros Hin. apply in_map_iff in Hin as (h & <- & Hin).
  apply In_buildLocators in Hin.
  destruct h; simpl; try (destruct Hin as [-> ?]; assumption).
  - destruct Hin as (-> & Hr & _). apply truthy_Some_nonempty, Hr.
  - destruct Hin as (Hl & -> & Hv). rewrite Hl.
    rewrite truthy_safeName_present in Hv. exact Hv.
Qed.

Lemma usable_gives_strategy el st :
  usable el st = true -> In st (strategy <$> buildLocators el).
Proof.
  intros H. apply in_map_iff. rewrite buildLocators_unfold.
  destruct st; simpl in H.
  - exists (ByTestId (ReconElement.testId el)). split; [reflexivity|].
    apply filter_In. split; [|exact H].
    rewrite H, !in_app_iff. simpl. tauto.
  - exists (ByRole (default "" (ReconElement.role el))
              (safeName (ReconElement.accessibleName el))).
    split; [reflexivity|]. apply filter_In. split.
    * rewrite H, !in_app_iff. simpl. tauto.
    * apply truthy_inv in H as (r & -> & Hr). simpl.
      apply nonEmpty_true, Hr.
  - apply andb_true_iff in H as [H1 H2].
    exists (ByLabel (safeName (ReconElement.labelText el))).
    split; [reflexivity|]. apply filter_In. split.
    * rewrite H1, !in_app_iff. simpl. tauto.
    * simpl. rewrite truthy_safeName_present. exact H2.
  - exists (ByPlaceholder (ReconElement.placeholder el)).
    split; [reflexivity|]. apply filter_In. split; [|exact H].
    rewrite H, !in_app_iff. simpl. tauto.
  - exists (ByCss (ReconElement.css el)).
    split; [reflexivity|]. apply filter_In. split; [|exact H].
    rewrite H, !in_app_iff. simpl. tauto.
  - exists (ByXpath (ReconElement.xpath el)).
    split; [reflexivity|]. apply filter_In. split; [|exact H].
    rewrite H, !in_app_iff. simpl. tauto.
Qed.

(** X6: a strategy is among the hints of an element exactly when its
    signal is usable: present and non-empty, and for the label also
    non-empty after whitespace normalization. *)
Theorem strategy_present_iff el st :
  In st (strategy <$> buildLocators el) <-> usable el st = true.
Proof.
  split.
  - apply strategy_needs_usable.
  - apply usable_gives_strategy.
Qed.

(** X7: no hint carries an empty or missing value: the role of a role
    hint and the value of every other hint are non-empty strings, and
    the name of a role hint is absent or non-empty. *)
Theorem buildLocators_no_empty_value el :
  Forall
    (fun h =>
       JS.truthy (hintValue h) = true
       /\ match h with
          | ByRole _ name => absentOrNonEmpty name = true
          | _ => True
          end)
    (buildLocators el).
Proof.
  apply List.Forall_forall. intros h Hin.
  apply In_buildLocators in Hin.
  destruct h; simpl; try (split; [apply Hin | exact I]).
  destruct Hin as (_ & Hr & ->). split.
  - apply nonEmpty_true, Hr.
  - destruct (safeName (ReconElement.accessibleName el)) as [n|] eqn:E;
      [|reflexivity].
    change (JS.truthy (Some n) = true). rewrite <- E.
    apply safeName_truthy. congruence.
Qed.

(** ** Slugs *)

Section Slugs.

Local Abbreviation hy := JS.isHyphen.
Local Abbreviation hyphenate := (JS.replaceRunsFrom JS.notLowerAlnum "-").

Lemma alnum_not_hyphen c : JS.isLowerAlnum c = true -> hy c = false.
Proof.
  destruct c as [[] [] [] [] [] [] [] []]; vm_compute; congruence.
Qed.

Lemma hyphen_not_alnum c : hy c = true -> JS.notLowerAlnum c = true.
Proof.
  unfold JS.notLowerAlnum. intros H.
  destruct (JS.isLowerAlnum c) eqn:E; [|reflexivity].
  rewrite (alnum_not_hyphen c E) in H. discriminate H.
Qed.

Lemma hyphenate_slugChars b s : allChars isSlugChar (hyphenate b s) = true.
Proof.
  revert b. induction s as [|c s IH]; intros b; [reflexivity|].
  cbn [JS.replaceRunsFrom].
  destruct (JS.notLowerAlnum c) eqn:E.
  - destruct b; [apply IH|]. rewrite append_cons, append_nil.
    cbn [allChars]. rewrite IH. reflexivity.
  - apply negb_false_iff in E. cbn [allChars]. unfold isSlugChar at 1.
    rewrite E. apply IH.
Qed.

(** Hyphens of the output are single; inside a run the output does not
    start with one. *)
Lemma hyphenate_singleHyphens s :
  (forall b, singleHyphens (hyphenate b s) = true)
  /\ startsWithHyphen (hyphenate true s) = false.
Proof.
  induction s as [|c s [IH1 IH2]]; [split; [intros []|]; reflexivity|].
  cbn [JS.replaceRunsFrom].
  destruct (JS.notLowerAlnum c) eqn:E.
  - split; [|exact IH2]. intros [|]; [apply IH1|].
    rewrite append_cons, append_nil. cbn [singleHyphens].
    rewrite IH2, IH1. reflexivity.
  - apply negb_false_iff in E.
    pose proof (alnum_not_hyphen c E) as Hc.
    split; [intros b|]; cbn [singleHyphens startsWithHyphen];
      rewrite Hc; [apply IH1 | reflexivity].
Qed.

Lemma dropWhile_hyphen_shape s :
  allChars isSlugChar s = true -> singleHyphens s = true ->
  allChars isSlugChar (JS.dropWhile hy s) = true
  /\ singleHyphens (JS.dropWhile hy s) = true
  /\ startsWithHyphen (JS.dropWhile hy s) = false.
Proof.
  induction s as [|c s IH]; [auto|].
  intros Ha Hs. simpl in Ha, Hs.
  apply andb_true_iff in Ha as [Ha1 Ha2].
  apply andb_true_iff in Hs as [Hs1 Hs2].
  simpl. destruct (hy c) eqn:Hc; [apply IH; assumption|].
  simpl. rewrite Ha1, Ha2, Hs2, Hc. auto.
Qed.

Lemma dropWhileEnd_start s :
  startsWithHyphen s = false ->
  startsWithHyphen (JS.dropWhileEnd hy s) = false.
Proof.
  destruct s as [|c s]; [reflexivity|]. simpl. intros Hc. rewrite Hc.
  simpl. exact Hc.
Qed.

Lemma dropWhileEnd_hyphen_shape s :
  allChars isSlugChar s = true -> singleHyphens s = true ->
  allChars isSlugChar (JS.dropWhileEnd hy s) = true
  /\ singleHyphens (JS.dropWhileEnd hy s) = true
  /\ endsWithHyphen (JS.dropWhileEnd hy s) = false.
Proof.
  induction s as [|c s IH]; [auto|].
  intros Ha Hs. simpl in Ha, Hs.
  apply andb_true_iff in Ha as [Ha1 Ha2].
  apply andb_true_iff in Hs as [Hs1 Hs2].
  destruct (IH Ha2 Hs2) as (I1 & I2 & I3).
  simpl. destruct (JS.dropWhileEnd hy s) as [|d r] eqn:E.
  - destruct (hy c) eqn:Hc; simpl; [auto|].
    rewrite Ha1, Hc. auto.
  - rewrite andb_false_r.
    (* the kept rest starts as [s] does *)
    assert (Hd : startsWithHyphen s = startsWithHyphen (String d r)).
    { destruct s as [|e s']; [discriminate E|].
      simpl in E. destruct (hy e && _); [discriminate E|].
      injection E as <- _. reflexivity. }
    change (allChars isSlugChar (String c (String d r)))
      with (isSlugChar c && allChars isSlugChar (String d r)).
    change (singleHyphens (String c (String d r)))
      with (negb (hy c && startsWithHyphen (String d r))
            && singleHyphens (String d r)).
    change (endsWithHyphen (String c (String d r)))
      with (endsWithHyphen (String d r)).
    rewrite Ha1, I1, I2, I3, <- Hd, Hs1. auto.
Qed.

Lemma slice0_singleHyphens n s :
  singleHyphens s = true -> singleHyphens (JS.slice0 n s) = true.
Proof.
  unfold JS.slice0. revert n.
  induction s as [|c s IH]; intros [|n] H; try reflexivity.
  simpl in H. apply andb_true_iff in H as [H1 H2].
  change (substring 0 (S n) (String c s))
    with (String c (substring 0 n s)).
  cbn [singleHyphens]. rewrite (IH n H2), andb_true_r.
  destruct (hy c); [|reflexivity]. simpl in *.
  destruct s as [|d s]; destruct n; simpl in *; try reflexivity.
  exact H1.
Qed.

Lemma slice0_start n s :
  startsWithHyphen s = false -> startsWithHyphen (JS.slice0 n s) = false.
Proof. destruct s, n; simpl; auto. Qed.

(** The shape of a slug before any cut. *)
Lemma trimmed_slug_shape s :
  let slug := JS.stripEnds hy (JS.replaceRuns JS.notLowerAlnum "-" s) in
  allChars isSlugChar slug = true /\ singleHyphens slug = true
  /\ startsWithHyphen slug = false /\ endsWithHyphen slug = false.
Proof.
  unfold JS.stripEnds, JS.replaceRuns. simpl.
  destruct (dropWhile_hyphen_shape (hyphenate false s)
              (hyphenate_slugChars false s)
              (proj1 (hyphenate_singleHyphens s) false)) as (D1 & D2 & D3).
  destruct (dropWhileEnd_hyphen_shape _ D1 D2) as (E1 & E2 & E3).
  repeat split; try assumption. apply dropWhileEnd_start, D3.
Qed.

(** A string in slug shape is left as it is by the hyphenation. *)
Lemma hyphenate_fixed s b :
  allChars isSlugChar s = true -> singleHyphens s = true ->
  (b = true -> startsWithHyphen s = false) ->
  hyphenate b s = s.
Proof.
  revert b. induction s as [|c s IH]; intros b Ha Hs Hb; [reflexivity|].
  simpl in Ha, Hs.
  apply andb_true_iff in Ha as [Ha1 Ha2].
  apply andb_true_iff in Hs as [Hs1 Hs2].
  cbn [JS.replaceRunsFrom].
  destruct (JS.notLowerAlnum c) eqn:E.
  - apply negb_true_iff in E.
    unfold isSlugChar in Ha1. rewrite E in Ha1. simpl in Ha1.
    destruct b; [specialize (Hb eq_refl); simpl in Hb; congruence|].
    rewrite Ha1 in Hs1. simpl in Hs1. apply negb_true_iff in Hs1.
    rewrite append_cons, append_nil, (IH true Ha2 Hs2 (fun _ => Hs1)).
    destruct c as [[] [] [] [] [] [] [] []]; try discriminate Ha1.
    reflexivity.
  - rewrite (IH false Ha2 Hs2); [reflexivity | discriminate].
Qed.

Lemma dropWhile_fixed s :
  startsWithHyphen s = false -> JS.dropWhile hy s = s.
Proof. destruct s; simpl; [reflexivity | intros ->; reflexivity]. Qed.

Lemma dropWhileEnd_fixed s :
  endsWithHyphen s = false -> JS.dropWhileEnd hy s = s.
Proof.
  induction s as [|c s IH]; [reflexivity|].
  simpl. destruct s as [|d r].
  - intros ->. reflexivity.
  - intros H. rewrite (IH H). simpl. rewrite andb_false_r. reflexivity.
Qed.

Lemma toLowerCase_slug s :
  allChars isSlugChar s = true -> JS.toLowerCase s = s.
Proof.
  unfold JS.toLowerCase.
  induction s as [|c s IH]; [reflexivity|].
  simpl. intros H. apply andb_true_iff in H as [H1 H2].
  rewrite (IH H2). f_equal.
  destruct c as [[] [] [] [] [] [] [] []]; try discriminate H1;
    reflexivity.
Qed.

Lemma stripPrefix_www_slug s :
  allChars isSlugChar s = true -> JS.stripPrefix "www." s = s.
Proof.
  intros H. unfold JS.stripPrefix.
  destruct (String.prefix "www." s) eqn:P; [|reflexivity].
  apply prefix_correct in P.
  destruct s as [|c1 [|c2 [|c3 [|c4 r]]]]; simpl in P; try discriminate P.
  injection P as _ _ _ -> _. simpl in H.
  rewrite !andb_false_r in H. discriminate H.
Qed.

End Slugs.

(** X8: the slug of an identifier is made of the characters a-z, 0-9
    and hyphen only, has at most 50 characters, has no two hyphens in a
    row and does not start with a hyphen. *)
Theorem slugOf_shape base :
  allChars isSlugChar (slugOf base) = true
  /\ String.length (slugOf base) <= 50
  /\ singleHyphens (slugOf base) = true
  /\ startsWithHyphen (slugOf base) = false.
Proof.
  unfold slugOf.
  destruct (trimmed_slug_shape (JS.toLowerCase (normalizeWhitespace base)))
    as (H1 & H2 & H3 & _).
  split; [apply slice0_allChars, H1|].
  split; [apply slice0_length|].
  split; [apply slice0_singleHyphens, H2 | apply slice0_start, H3].
Qed.

(** X9: [safeSlug] returns a string of the characters a-z, 0-9 and
    hyphen only, without hyphen at either end and without two hyphens
    in a row, and leaves such a string as it is; so it is idempotent. *)
Theorem safeSlug_shape_and_idempotent input :
  allChars isSlugChar (safeSlug input) = true
  /\ startsWithHyphen (safeSlug input) = false
  /\ endsWithHyphen (safeSlug input) = false
  /\ singleHyphens (safeSlug input) = true
  /\ safeSlug (safeSlug input) = safeSlug input.
Proof.
  assert (S : forall t,
             allChars isSlugChar t = true -> singleHyphens t = true ->
             startsWithHyphen t = false -> endsWithHyphen t = false ->
             safeSlug t = t).
  { intros t T1 T2 T3 T4. unfold safeSlug, JS.replaceRuns, JS.stripEnds.
    rewrite (toLowerCase_slug _ T1), (stripPrefix_www_slug _ T1).
    rewrite (hyphenate_fixed t false T1 T2) by discriminate.
    rewrite (dropWhile_fixed _ T3). apply dropWhileEnd_fixed, T4. }
  destruct (trimmed_slug_shape
              (JS.stripPrefix "www." (JS.toLowerCase input)))
    as (H1 & H2 & H3 & H4).
  fold (safeSlug input) in H1, H2, H3, H4.
  repeat split; try assumption. apply S; assumption.
Qed.

(** ** Kinds and links of a model *)

Lemma kindFromRecon_kindOf el :
  kindFromRecon el = kindOf (ReconElement.type el).
Proof. reflexivity. Qed.

Lemma kindOf_inj t1 t2 : kindOf t1 = kindOf t2 -> t1 = t2.
Proof. destruct t1, t2; simpl; congruence. Qed.

(** X10: in a model, an element keeps the tag name and role of the
    report element at the same position; its kind is never checkbox or
    radio, and is textbox exactly when the report type is input; and it
    has an href only when the report type is link, the href being the
    one of the report. *)
Theorem model_element_kind_and_href parse report title model i m :
  buildPageModel parse report title = Normal model ->
  PageModel.elements model !! i = Some m ->
  exists el,
    ReconReport.elements report !! i = Some el
    /\ ElementModel.tagName m = ReconElement.tagName el
    /\ ElementModel.role m = ReconElement.role el
    /\ ElementModel.kind m = kindOf (ReconElement.type el)
    /\ ElementModel.kind m ≠ K_checkbox
    /\ ElementModel.kind m ≠ K_radio
    /\ (ElementModel.kind m = K_textbox <-> ReconElement.type el = T_input)
    /\ (ElementModel.href m ≠ None ->
        ReconElement.type el = T_link
        /\ ElementModel.href m = ReconElement.href el).
Proof.
  intros Hm Hi.
  destruct (parse (ReconReport.url report)) as [u|] eqn:E;
    [|rewrite (buildPageModel_malformed _ _ _ E) in Hm; discriminate Hm].
  rewrite (buildPageModel_parsed _ _ _ _ E) in Hm. injection Hm as <-.
  cbn [PageModel.elements] in Hi. unfold mapIndexed in Hi.
  apply list_lookup_imap_Some in Hi as (el & Hel & ->).
  exists el. split; [exact Hel|].
  cbn [elementModel ElementModel.tagName ElementModel.role
       ElementModel.kind ElementModel.href].
  rewrite kindFromRecon_kindOf.
  destruct (ReconElement.type el); simpl;
    repeat split; try congruence.
Qed.

Lemma model_element_kind_and_href_witness :
  exists el,
    [Sample.zip] !! 0 = Some el
    /\ ElementModel.kind (elementModel Sample.zip 0)
       = kindOf (ReconElement.type el).
Proof.
  destruct (model_element_kind_and_href Sample.parseUrl
              (Sample.report "https://www.example.com" [Sample.zip]) None
              {| PageModel.url := "https://www.example.com";
                 PageModel.domain := "example.com";
                 PageModel.scannedAt := "2026-01-18T00:00:00.000Z";
                 PageModel.title := None;
                 PageModel.elements := [elementModel Sample.zip 0] |}
              0 (elementModel Sample.zip 0))
    as (el & Hel & _ & _ & Hk & _).
  - vm_compute. reflexivity.
  - reflexivity.
  - exists el. split; [exact Hel | exact Hk].
Defined.

(** ** Types from roles and tags *)

(** X11: a role of the interactive set decides the type by itself:
    textbox gives input, combobox and listbox give select, link gives
    link, button gives button and any other interactive role gives
    other, whatever the tag, the href and the type attribute are. *)
Theorem normalizeType_role_precedence raw r :
  RawEl.role raw = Some r ->
  JS.toLowerCase r ∈ INTERACTIVE_ROLES ->
  normalizeType raw = typeOfRole (JS.toLowerCase r).
Proof.
  intros Hr Hin. unfold normalizeType, typeOfRole.
  rewrite Hr. cbn [fmap option_fmap option_map].
  assert (Hi : isInteractiveRole (Some (JS.toLowerCase r)) = true).
  { unfold isInteractiveRole, has. cbn [default from_option id].
    rewrite (bool_decide_eq_true_2 _ Hin), andb_true_r.
    destruct (JS.toLowerCase r); [|reflexivity].
    exfalso. revert Hin. unfold INTERACTIVE_ROLES.
    rewrite !elem_of_union, !elem_of_singleton.
    intros H. repeat destruct H as [H|H]; discriminate H. }
  rewrite Hi. clear Hi Hin. unfold strictEq, strEq.
  generalize (JS.toLowerCase r). intros lr.
  destruct (decide (lr = "textbox")) as [->|H1]; [reflexivity|].
  destruct (decide (lr = "combobox")) as [->|H2]; [reflexivity|].
  destruct (decide (lr = "listbox")) as [->|H3]; [reflexivity|].
  destruct (decide (lr = "link")) as [->|H4]; [reflexivity|].
  destruct (decide (lr = "button")) as [->|H5]; [reflexivity|].
  rewrite !bool_decide_eq_false_2 by congruence. reflexivity.
Qed.

Lemma normalizeType_role_precedence_witness :
  normalizeType
    (RawEl.mk "div" (Some "Textbox") None None None None None None None None
       (Some false) (Some false) None None None (Some "div")
       (Some "/html[1]/body[1]/div[1]"))
  = typeOfRole (JS.toLowerCase "Textbox").
Proof.
  apply (normalizeType_role_precedence
    (RawEl.mk "div" (Some "Textbox") None None None None None None None None
       (Some false) (Some false) None None None (Some "div")
       (Some "/html[1]/body[1]/div[1]")) "Textbox").
  - reflexivity.
  - vm_compute. reflexivity.
Defined.

(** X12: without an interactive role, the tag decides: button gives
    button, an anchor gives link when its href is present and non-empty
    and other when it is not, select gives select, textarea gives
    textarea, and every tag other than these and input gives other. *)
Theorem normalizeType_tag_fallback raw :
  (forall r, RawEl.role raw = Some r ->
             JS.toLowerCase r ∉ INTERACTIVE_ROLES) ->
  let tag := JS.toLowerCase (RawEl.tag raw) in
  (tag = "button" -> normalizeType raw = T_button)
  /\ (tag = "a" ->
      normalizeType raw
      = if JS.truthy (RawEl.href raw) then T_link else T_other)
  /\ (tag = "select" -> normalizeType raw = T_select)
  /\ (tag = "textarea" -> normalizeType raw = T_textarea)
  /\ (tag ∉ ["button"; "a"; "select"; "textarea"; "input"] ->
      normalizeType raw = T_other).
Proof.
  intros Hrole tag. subst tag. unfold normalizeType.
  rewrite (not_interactive _ Hrole).
  repeat split; try (intros ->; simpl;
                     try destruct (JS.truthy _); reflexivity).
  intros Hn. rewrite !elem_of_cons, elem_of_nil in Hn.
  rewrite !strEq_ne by tauto. reflexivity.
Qed.

Lemma normalizeType_tag_fallback_witness :
  normalizeType
    (RawEl.mk "a" None None None (Some "Top") None None None None None
       (Some false) (Some false) None None (Some "Top") (Some "a")
       (Some "/html[1]/body[1]/a[1]"))
  = T_other.
Proof.
  apply (proj1 (proj2 (normalizeType_tag_fallback
    (RawEl.mk "a" None None None (Some "Top") None None None None None
       (Some false) (Some false) None None (Some "Top") (Some "a")
       (Some "/html[1]/body[1]/a[1]"))
    ltac:(intros r H; discriminate H)))).
  reflexivity.
Defined.

(** ** What a scan records *)

Lemma absentOrNonEmpty_truthy v :
  absentOrNonEmpty v = true <-> (v = None \/ JS.truthy v = true).
Proof. destruct v as [[|c s]|]; simpl; intuition congruence. Qed.

Lemma or_absentOrNonEmpty a b :
  absentOrNonEmpty b = true -> absentOrNonEmpty (a ||| b) = true.
Proof.
  intros H. unfold JS.or. destruct (JS.truthy a) eqn:E; [|exact H].
  apply absentOrNonEmpty_truthy. right. exact E.
Qed.

Lemma orUndefined_absentOrNonEmpty a :
  absentOrNonEmpty (JS.orUndefined a) = true.
Proof. apply or_absentOrNonEmpty. reflexivity. Qed.

Lemma if_absentOrNonEmpty (c : bool) v :
  absentOrNonEmpty v = true ->
  absentOrNonEmpty (if c then v else None) = true.
Proof. destruct c; auto. Qed.

Lemma getText_shape e :
  absentOrNonEmpty (getText e) = true
  /\ withinLength 200 (getText e) = true.
Proof.
  unfold getText. destruct (JS.nonEmpty _) eqn:E; [|auto].
  split.
  - apply (slice0_nonEmpty 199), E.
  - apply Nat.leb_le, slice0_length.
Qed.

(** The text kept from a trimmed label is not empty and stays present
    under normalization. *)
Lemma labelTextOf_present t :
  JS.truthy (Some (JS.trim t)) = true ->
  JS.nonEmpty (labelTextOf (JS.trim t)) = true
  /\ presentName (Some (labelTextOf (JS.trim t))) = true.
Proof.
  intros Ht. simpl in Ht.
  destruct (trim_clean t) as [E|[Hs _]]; [rewrite E in Ht; discriminate|].
  pose proof (collapse_startsClean _ Hs) as Hc.
  unfold labelTextOf, JS.replaceRuns.
  destruct (JS.replaceRunsFrom JS.isWhiteSpace " " false (JS.trim t))
    as [|c r] eqn:E; [discriminate Hc|].
  split; [reflexivity|].
  simpl. apply nonEmpty_true. intros Hn.
  apply normalizeWhitespace_empty in Hn.
  simpl in Hc, Hn. apply negb_true_iff in Hc. rewrite Hc in Hn.
  discriminate Hn.
Qed.

Lemma findAssociatedLabelText_shape document e :
  absentOrNonEmpty (findAssociatedLabelText document e) = true
  /\ withinLength 200 (findAssociatedLabelText document e) = true
  /\ (findAssociatedLabelText document e ≠ None ->
      presentName (findAssociatedLabelText document e) = true).
Proof.
  unfold findAssociatedLabelText.
  assert (L : forall o : option string,
             JS.truthy (JS.trim <$> o) = true ->
             let v := Some (labelTextOf (default "" (JS.trim <$> o))) in
             absentOrNonEmpty v = true /\ withinLength 200 v = true
             /\ (v ≠ None -> presentName v = true)).
  { intros [t|]; [|discriminate]. intros Ht v. subst v.
    cbn [fmap option_fmap option_map default from_option id].
    destruct (labelTextOf_present t Ht) as [H1 H2].
    repeat split; [exact H1 | | intros _; exact H2].
    apply Nat.leb_le, slice0_length. }
  destruct (JS.truthy (if JS.truthy (Dom.getAttribute e "id") then _
                       else _)) eqn:E1.
  - destruct (JS.truthy (Dom.getAttribute e "id")); [|discriminate E1].
    apply (L _ E1).
  - destruct (JS.truthy (JS.trim <$> Dom.closestLabel e)) eqn:E2.
    + apply (L _ E2).
    + repeat split. congruence.
Qed.

Lemma accessibleName_absentOrNonEmpty document e :
  absentOrNonEmpty (accessibleName document e) = true.
Proof.
  unfold accessibleName.
  repeat match goal with
  | |- context [if JS.truthy ?v then ?v else _] =>
      destruct (JS.truthy v) eqn:?;
      [apply absentOrNonEmpty_truthy; right; assumption|]
  end.
  apply getText_shape.
Qed.

(** X13: the name helpers never answer with an empty string:
    [accessibleName], [findAssociatedLabelText] and [getText] return
    nothing or a non-empty string, and the label text and the visible
    text have at most 200 characters. *)
Theorem name_helpers_never_empty document e :
  absentOrNonEmpty (accessibleName document e) = true
  /\ absentOrNonEmpty (findAssociatedLabelText document e) = true
  /\ absentOrNonEmpty (getText e) = true
  /\ withinLength 200 (findAssociatedLabelText document e) = true
  /\ withinLength 200 (getText e) = true.
Proof.
  pose proof (getText_shape e) as [G1 G2].
  pose proof (findAssociatedLabelText_shape document e) as (F1 & F2 & _).
  pose proof (accessibleName_absentOrNonEmpty document e).
  auto.
Qed.

Lemma toLowerChar_idempotent c :
  JS.toLowerChar (JS.toLowerChar c) = JS.toLowerChar c.
Proof. destruct c as [[] [] [] [] [] [] [] []]; reflexivity. Qed.

Lemma toLowerCase_idempotent s :
  JS.toLowerCase (JS.toLowerCase s) = JS.toLowerCase s.
Proof.
  unfold JS.toLowerCase. induction s as [|c s IH]; [reflexivity|].
  simpl. rewrite IH, toLowerChar_idempotent. reflexivity.
Qed.

Lemma xpathFor_nonEmpty e : JS.nonEmpty (xpathFor e) = true.
Proof. unfold xpathFor. destruct (JS.truthy _); reflexivity. Qed.

(** The shape of one recorded string, by the way it is computed. *)
Ltac field_shape :=
  first [ apply orUndefined_absentOrNonEmpty
        | apply accessibleName_absentOrNonEmpty
        | apply getText_shape
        | apply xpathFor_nonEmpty
        | apply or_absentOrNonEmpty; reflexivity
        | apply if_absentOrNonEmpty; field_shape ].

Lemma toReconElement_rawElement_shape document e :
  let el := toReconElement (rawElement document e) in
  Forall (fun v => absentOrNonEmpty v = true) (scannedStrings el)
  /\ JS.truthy (ReconElement.xpath el) = true
  /\ JS.toLowerCase (ReconElement.tagName el) = ReconElement.tagName el
  /\ (ReconElement.typeAttr el ≠ None <-> ReconElement.tagName el = "input")
  /\ (ReconElement.href el ≠ None -> ReconElement.tagName el = "a")
  /\ (ReconElement.labelText el ≠ None ->
      presentName (ReconElement.labelText el) = true).
Proof.
  intros el. subst el. unfold rawElement.
  destruct (isDisabled e) as [d a].
  unfold toReconElement, scannedStrings.
  cbn [ReconElement.role
       ReconElement.accessibleName ReconElement.labelText
       ReconElement.testId ReconElement.text ReconElement.id
       ReconElement.name ReconElement.href ReconElement.placeholder
       ReconElement.ariaLabel ReconElement.typeAttr ReconElement.value
       ReconElement.xpath ReconElement.tagName RawEl.role
       RawEl.accessibleName RawEl.labelText RawEl.testId RawEl.text
       RawEl.id RawEl.name RawEl.href RawEl.placeholder RawEl.ariaLabel
       RawEl.typeAttr RawEl.value RawEl.xpath RawEl.tag].
  pose proof (findAssociatedLabelText_shape document e) as (F1 & _ & F3).
  split; [|split; [|split; [|split; [|split]]]].
  - repeat constructor; try exact F1; field_shape.
  - apply xpathFor_nonEmpty.
  - apply toLowerCase_idempotent.
  - case_bool_decide as Ht; split; try congruence.
    intros _. unfold JS.or.
    destruct (JS.truthy (Dom.getAttribute e "type")) eqn:E; [|discriminate].
    intros Hn. rewrite Hn in E. discriminate E.
  - case_bool_decide as Ht; congruence.
  - exact F3.
Qed.

Lemma append_nonEmpty_r (a : string) c b : a +:+ String c b ≠ "".
Proof.
  destruct a; [rewrite append_nil | rewrite append_cons]; discriminate.
Qed.

Lemma toLowerCase_empty s : JS.toLowerCase s = "" <-> s = "".
Proof.
  destruct s as [|c s]; [tauto|].
  unfold JS.toLowerCase. cbn [JS.mapChars]. split; discriminate.
Qed.

Lemma orUndefined_None v : JS.orUndefined v = None <-> JS.truthy v = false.
Proof.
  unfold JS.orUndefined, JS.or.
  destruct (JS.truthy v) eqn:E; split; try congruence.
  intros ->. discriminate E.
Qed.

(** The selector is empty only as the bare tag name of a node whose tag
    name is empty. *)
Lemma bestCss_empty e :
  bestCss e = "" <->
  JS.truthy
    (Dom.getAttribute e "data-testid" ||| Dom.getAttribute e "data-test"
     ||| Dom.getAttribute e "data-test-id") = false
  /\ JS.truthy (Dom.getAttribute e "id") = false
  /\ JS.truthy (Dom.getAttribute e "name") = false
  /\ JS.truthy (Dom.getAttribute e "aria-label") = false
  /\ Dom.tagName e = "".
Proof.
  unfold bestCss.
  destruct (JS.truthy (_ ||| _ ||| _)).
  { split; [discriminate | intros [H _]; discriminate H]. }
  destruct (JS.truthy (Dom.getAttribute e "id")).
  { split; [discriminate | intros (_ & H & _); discriminate H]. }
  destruct (JS.truthy (Dom.getAttribute e "name")).
  { split; [|intros (_ & _ & H & _); discriminate H].
    intros H. destruct (append_nonEmpty_r _ _ _ H). }
  destruct (JS.truthy (Dom.getAttribute e "aria-label")).
  { split; [|intros (_ & _ & _ & H & _); discriminate H].
    intros H. destruct (append_nonEmpty_r _ _ _ H). }
  rewrite toLowerCase_empty. tauto.
Qed.

(** The CSS selector of a scanned element: always there, and empty
    exactly for a node with an empty tag name and none of the
    attributes a selector is built from. *)
Lemma toReconElement_rawElement_css document e :
  let el := toReconElement (rawElement document e) in
  exists c,
    ReconElement.css el = Some c
    /\ (c = "" <->
        ReconElement.tagName el = "" /\ ReconElement.testId el = None
        /\ ReconElement.id el = None /\ ReconElement.name el = None
        /\ ReconElement.ariaLabel el = None).
Proof.
  intros el. subst el. exists (bestCss e). unfold rawElement.
  destruct (isDisabled e) as [d a]. unfold toReconElement.
  cbn [ReconElement.css ReconElement.tagName ReconElement.testId
       ReconElement.id ReconElement.name ReconElement.ariaLabel
       RawEl.css RawEl.tag RawEl.testId RawEl.id RawEl.name
       RawEl.ariaLabel].
  split; [reflexivity|].
  rewrite bestCss_empty, toLowerCase_empty, !orUndefined_None.
  change (?t ||| None) with (JS.orUndefined t).
  rewrite orUndefined_None. tauto.
Qed.

(** X14: every element of a scan report has each of its optional
    strings other than the CSS selector either absent or non-empty; it
    always has a non-empty XPath; it always has a CSS selector, which is
    empty exactly when the element has an empty tag name and no
    test-id, id, name attribute and aria-label, so that all fourteen
    optional strings of an element with a tag name are absent or
    non-empty; its tag name is in lower case; it has a type attribute
    exactly when it is an input, an href only when it is an anchor, and
    a label text only if that text is non-empty after normalization. *)
Theorem scan_records_no_empty_string Number url now document :
  Forall
    (fun el =>
       Forall (fun v => absentOrNonEmpty v = true) (scannedStrings el)
       /\ JS.truthy (ReconElement.xpath el) = true
       /\ (exists c,
             ReconElement.css el = Some c
             /\ (c = "" <->
                 ReconElement.tagName el = ""
                 /\ ReconElement.testId el = None
                 /\ ReconElement.id el = None
                 /\ ReconElement.name el = None
                 /\ ReconElement.ariaLabel el = None))
       /\ (ReconElement.tagName el ≠ "" ->
           Forall (fun v => absentOrNonEmpty v = true) (optionalStrings el))
       /\ JS.toLowerCase (ReconElement.tagName el) = ReconElement.tagName el
       /\ (ReconElement.typeAttr el ≠ None
           <-> ReconElement.tagName el = "input")
       /\ (ReconElement.href el ≠ None -> ReconElement.tagName el = "a")
       /\ (ReconElement.labelText el ≠ None ->
           presentName (ReconElement.labelText el) = true))
    (ReconReport.elements (scanUrl Number url now document)).
Proof.
  unfold scanUrl, evaluate. cbn [ReconReport.elements].
  induction (List.filter keepContainer _) as [|e es IH]; simpl;
    constructor; [|exact IH].
  pose proof (toReconElement_rawElement_shape document e)
    as (Hs & Hx & Hrest).
  pose proof (toReconElement_rawElement_css document e)
    as (c & Hc & Hempty).
  split; [exact Hs|]. split; [exact Hx|].
  split; [exists c; split; [exact Hc | exact Hempty]|].
  split; [|exact Hrest].
  intros Htag. unfold optionalStrings. constructor; [|exact Hs].
  rewrite Hc. apply nonEmpty_true. intros E.
  apply Hempty in E as [E _]. exact (Htag E).
Qed.

(** ** Hints of scanned elements *)

(** With all six signals usable, all six hints are emitted. *)
Lemma all_usable_gives_six el :
  (forall st, usable el st = true) ->
  strategy <$> buildLocators el = preferenceOrder.
Proof.
  intros H.
  pose proof (H S_testId) as H1. pose proof (H S_role) as H2.
  pose proof (H S_label) as H3. pose proof (H S_placeholder) as H4.
  pose proof (H S_css) as H5. pose proof (H S_xpath) as H6.
  simpl in H1, H2, H3, H4, H5, H6.
  apply andb_true_iff in H3 as [H3 H3'].
  rewrite buildLocators_unfold, H1, H2, H3, H4, H5, H6.
  cbn [app List.filter keepLocator].
  rewrite H1, H4, H5, H6, truthy_safeName_present, H3'.
  apply truthy_inv in H2 as (r & -> & Hr).
  apply nonEmpty_true in Hr. cbn [default from_option id].
  rewrite Hr. reflexivity.
Qed.

Lemma bestCss_with_testId e :
  JS.truthy
    (Dom.getAttribute e "data-testid" ||| Dom.getAttribute e "data-test"
     ||| Dom.getAttribute e "data-test-id") = true ->
  JS.nonEmpty (bestCss e) = true.
Proof. intros H. unfold bestCss. rewrite H. reflexivity. Qed.

Lemma rawElement_testId_css document e :
  RawEl.testId (rawElement document e) ≠ None ->
  JS.truthy (RawEl.css (rawElement document e)) = true.
Proof.
  unfold rawElement. destruct (isDisabled e) as [d a].
  cbn [RawEl.testId RawEl.css]. intros H.
  apply bestCss_with_testId.
  unfold JS.or at 1 in H.
  destruct (JS.truthy (_ ||| _ ||| _)); [reflexivity | congruence].
Qed.

Lemma present_iff_truthy v :
  absentOrNonEmpty v = true -> (v ≠ None <-> JS.truthy v = true).
Proof. destruct v as [[|c s]|]; simpl; intuition congruence. Qed.

(** X15: for every element of a scan report, a test-id, role, label or
    placeholder hint is emitted exactly when the element has that
    signal, an XPath hint is always emitted, and an element that has a
    test-id, a role, a label text and a placeholder gets all six hints
    in the preference order. *)
Theorem scan_hints_follow_signals Number url now document :
  Forall
    (fun el =>
       let hints := strategy <$> buildLocators el in
       (In S_testId hints <-> ReconElement.testId el ≠ None)
       /\ (In S_role hints <-> ReconElement.role el ≠ None)
       /\ (In S_label hints <-> ReconElement.labelText el ≠ None)
       /\ (In S_placeholder hints <-> ReconElement.placeholder el ≠ None)
       /\ In S_xpath hints
       /\ (ReconElement.testId el ≠ None ->
           ReconElement.role el ≠ None ->
           ReconElement.labelText el ≠ None ->
           ReconElement.placeholder el ≠ None ->
           hints = preferenceOrder))
    (ReconReport.elements (scanUrl Number url now document)).
Proof.
  unfold scanUrl, evaluate. cbn [ReconReport.elements].
  induction (List.filter keepContainer _) as [|e es IH]; simpl;
    constructor; [|exact IH].
  pose proof (toReconElement_rawElement_shape document e)
    as (Hs & Hx & _ & _ & _ & Hl).
  pose proof (rawElement_testId_css document e) as Hcss.
  set (el := toReconElement (rawElement document e)) in *.
  change (RawEl.testId (rawElement document e))
    with (ReconElement.testId el) in Hcss.
  change (RawEl.css (rawElement document e))
    with (ReconElement.css el) in Hcss.
  unfold scannedStrings in Hs.
  repeat match type of Hs with
         | Forall _ (_ :: _) => apply Forall_cons_1 in Hs as [? Hs]
         end.
  assert (A : forall st,
             st ≠ S_css ->
             usable el st = true <->
             match st with
             | S_testId => ReconElement.testId el
             | S_role => ReconElement.role el
             | S_label => ReconElement.labelText el
             | S_placeholder => ReconElement.placeholder el
             | S_css => ReconElement.css el
             | S_xpath => ReconElement.xpath el
             end ≠ None).
  { intros st Hst. destruct st; simpl; try congruence;
      try (symmetry; apply present_iff_truthy; assumption).
    rewrite andb_true_iff. split.
    - intros [Ht _] E. rewrite E in Ht. discriminate Ht.
    - intros Hn. split; [|exact (Hl Hn)].
      apply present_iff_truthy; assumption. }
  assert (M : forall st,
             In st (strategy <$> buildLocators el) <-> usable el st = true).
  { intros st. split;
      [apply strategy_needs_usable | apply usable_gives_strategy]. }
  cbv zeta. rewrite !M, !A by discriminate.
  repeat split; try tauto.
  - intros E. rewrite E in Hx. discriminate Hx.
  - intros T R L P. apply all_usable_gives_six.
    intros [| | | | |]; try (apply A; [discriminate | assumption]).
    + simpl. apply Hcss, T.
    + exact Hx.
Qed.

(** ** Which nodes a scan reports *)

Lemma In_survivors Number document e :
  In e (survivors Number document)
  <-> In e (Dom.allElements document)
      /\ isCandidate Number e = true /\ keepContainer e = true.
Proof. unfold survivors. rewrite !filter_In. tauto. Qed.

Lemma isCandidate_visible Number e :
  isCandidate Number e = true -> isVisible e = true.
Proof.
  unfold isCandidate. destruct (isVisible e); [reflexivity | discriminate].
Qed.

(** X16: the report has one element per node that passes both filters,
    in document order: the nodes reported are those of the page that
    are candidates and are not bare containers, and the tag names of
    the report are their tag names in lower case, in the same order. *)
Theorem scan_reports_survivors Number url now document :
  survivors Number document `sublist_of` Dom.allElements document
  /\ (forall e,
        In e (survivors Number document)
        <-> In e (Dom.allElements document)
            /\ isCandidate Number e = true /\ keepContainer e = true)
  /\ ReconElement.tagName
       <$> ReconReport.elements (scanUrl Number url now document)
     = (fun e => JS.toLowerCase (Dom.tagName e))
         <$> survivors Number document.
Proof.
  split; [|split].
  - unfold survivors. etransitivity; apply filter_sublist.
  - apply In_survivors.
  - unfold scanUrl, evaluate, survivors. cbn [ReconReport.elements].
    induction (List.filter keepContainer _) as [|e es IH]; [reflexivity|].
    cbn [map fmap list_fmap] in *. rewrite IH. f_equal.
Qed.

(** X17: a visible button, input, select or textarea of the page is
    always reported, whatever its attributes. *)
Theorem visible_controls_are_reported Number document e :
  In e (Dom.allElements document) ->
  isVisible e = true ->
  JS.toLowerCase (Dom.tagName e) ∈ ["button"; "input"; "select"; "textarea"] ->
  In e (survivors Number document).
Proof.
  intros Hin Hv Htag. apply In_survivors. split; [exact Hin|].
  unfold isCandidate, keepContainer. rewrite Hv. cbn [negb].
  rewrite !elem_of_cons, elem_of_nil in Htag.
  destruct Htag as [H|[H|[H|[H|[]]]]]; rewrite H;
    split; reflexivity.
Qed.

Lemma visible_controls_are_reported_witness :
  In Sample.disabledButton (survivors Sample.toNumber Sample.page).
Proof.
  apply (visible_controls_are_reported Sample.toNumber Sample.page
           Sample.disabledButton).
  - simpl. tauto.
  - vm_compute. reflexivity.
  - vm_compute. repeat constructor.
Defined.

(** X18: a node that is not visible is never reported; and a [div] or
    [span] without a non-empty role, a non-empty tabindex and a click
    handler is never reported, even when it is content-editable. *)
Theorem hidden_and_bare_nodes_are_not_reported Number document e :
  (isVisible e = false -> ~ In e (survivors Number document))
  /\ (JS.toLowerCase (Dom.tagName e) ∈ ["div"; "span"] ->
      JS.truthy (Dom.getAttribute e "role") = false ->
      JS.truthy (Dom.getAttribute e "tabindex") = false ->
      hasClickHandler e = false ->
      ~ In e (survivors Number document)).
Proof.
  split.
  - intros Hv Hin. apply In_survivors in Hin as (_ & Hc & _).
    apply isCandidate_visible in Hc. congruence.
  - intros Htag Hr Ht Hc Hin. apply In_survivors in Hin as (_ & _ & Hk).
    unfold keepContainer in Hk. rewrite Hr, Ht, Hc in Hk.
    rewrite !elem_of_cons, elem_of_nil in Htag.
    destruct Htag as [H|[H|[]]]; rewrite H in Hk; discriminate Hk.
Qed.

Lemma hidden_and_bare_nodes_are_not_reported_witness :
  ~ In Sample.plainDiv (survivors Sample.toNumber Sample.page).
Proof.
  apply (proj2 (hidden_and_bare_nodes_are_not_reported Sample.toNumber
                  Sample.page Sample.plainDiv)).
  - vm_compute. repeat constructor.
  - reflexivity.
  - reflexivity.
  - vm_compute. reflexivity.
Defined.

(** ** Selectors *)

Lemma unescape_cssEscape s : unescapeChars (cssEscape s) = s.
Proof.
  unfold cssEscape. induction s as [|c s IH]; [reflexivity|].
  cbn [JS.escapeChars]. destruct (JS.needsCssEscape c) eqn:E.
  - cbn [unescapeChars]. rewrite IH. reflexivity.
  - cbn [unescapeChars].
    destruct (Ascii.eqb c "\") eqn:Eb.
    + apply Ascii.eqb_eq in Eb. subst c. discriminate E.
    + rewrite IH. reflexivity.
Qed.

Lemma cssEscape_length s :
  String.length s <= String.length (cssEscape s)
  /\ String.length (cssEscape s) <= 2 * String.length s.
Proof.
  unfold cssEscape. induction s as [|c s IH]; simpl; [lia|].
  destruct (JS.needsCssEscape c); simpl; lia.
Qed.

Lemma cssEscape_inj s1 s2 : cssEscape s1 = cssEscape s2 -> s1 = s2.
Proof.
  intros H. rewrite <- (unescape_cssEscape s1), <- (unescape_cssEscape s2).
  rewrite H. reflexivity.
Qed.

(** X19: [cssEscape] loses nothing: reading an escaped value back,
    each backslash giving way to the character after it, returns the
    value; so different values have different escaped forms; and the
    escaped form is at least as long as the value and at most twice as
    long. *)
Theorem cssEscape_round_trip :
  (forall s, unescapeChars (cssEscape s) = s)
  /\ (forall s1 s2, cssEscape s1 = cssEscape s2 -> s1 = s2)
  /\ (forall s,
        String.length s <= String.length (cssEscape s)
        /\ String.length (cssEscape s) <= 2 * String.length s).
Proof.
  split; [exact unescape_cssEscape|].
  split; [exact cssEscape_inj | exact cssEscape_length].
Qed.

(** X20: two elements without test-id attribute that both have a
    non-empty id get the same CSS selector only when their ids are the
    same; the selector is the hash sign followed by the escaped id,
    whatever the tag and the other attributes. *)
Theorem bestCss_by_id e1 e2 id1 id2 :
  JS.truthy
    (Dom.getAttribute e1 "data-testid" ||| Dom.getAttribute e1 "data-test"
     ||| Dom.getAttribute e1 "data-test-id") = false ->
  JS.truthy
    (Dom.getAttribute e2 "data-testid" ||| Dom.getAttribute e2 "data-test"
     ||| Dom.getAttribute e2 "data-test-id") = false ->
  Dom.getAttribute e1 "id" = Some id1 -> id1 ≠ "" ->
  Dom.getAttribute e2 "id" = Some id2 -> id2 ≠ "" ->
  bestCss e1 = "#" +:+ cssEscape id1
  /\ (bestCss e1 = bestCss e2 -> id1 = id2).
Proof.
  intros T1 T2 I1 N1 I2 N2.
  assert (B : forall e i,
             JS.truthy
               (Dom.getAttribute e "data-testid"
                ||| Dom.getAttribute e "data-test"
                ||| Dom.getAttribute e "data-test-id") = false ->
             Dom.getAttribute e "id" = Some i -> i ≠ "" ->
             bestCss e = "#" +:+ cssEscape i).
  { intros e i T I N. unfold bestCss. rewrite T, I.
    rewrite (truthy_Some_nonempty i N). reflexivity. }
  split; [apply B; assumption|].
  rewrite (B e1 id1), (B e2 id2) by assumption.
  rewrite !append_cons, !append_nil. intros [= H].
  apply cssEscape_inj, H.
Qed.

Lemma bestCss_by_id_witness :
  bestCss Fixture.userInput = "#" +:+ cssEscape "user.name"
  /\ (bestCss Fixture.userInput = bestCss Fixture.userInput ->
      "user.name" = "user.name").
Proof.
  apply (bestCss_by_id Fixture.userInput Fixture.userInput
           "user.name" "user.name");
    solve [reflexivity | discriminate].
Defined.

(** The loop of [xpathPart] counts the preceding siblings of the same
    tag. *)
Lemma xpathPart_index tagName preceding :
  xpathPart tagName preceding
  = JS.toLowerCase tagName +:+ "["
    +:+ JS.ofNat (1 + length (sameTag tagName preceding)) +:+ "]".
Proof.
  unfold xpathPart, sameTag. do 4 f_equal.
  assert (G : forall n,
             foldl
               (fun index sibling =>
                  if bool_decide
                       (JS.toLowerCase sibling = JS.toLowerCase tagName)
                  then index + 1 else index)
               n preceding
             = n + length
                     (List.filter
                        (fun sibling =>
                           bool_decide
                             (JS.toLowerCase sibling
                              = JS.toLowerCase tagName))
                        preceding)).
  { induction preceding as [|p ps IH]; intros n; simpl; [lia|].
    rewrite IH. case_bool_decide; simpl; lia. }
  apply G.
Qed.

Lemma unshift_all {A B} (f : A -> B) (l : list A) (acc : list B) :
  foldl (fun parts node => f node :: parts) acc l
  = (rev (f <$> l) ++ acc)%list.
Proof.
  revert acc. induction l as [|x l IH]; intros acc; simpl; [reflexivity|].
  rewrite IH, <- app_assoc. reflexivity.
Qed.

(** X21: the XPath of a node with a non-empty id is the id form and
    nothing else of the node matters; without one it is a slash followed
    by one step per node from the root down to the node itself, joined
    by slashes, the step of a node being its tag in lower case and, in
    brackets, one plus the number of its preceding siblings of the same
    tag. *)
Theorem xpathFor_structure e :
  (forall i, Dom.getAttribute e "id" = Some i -> i ≠ "" ->
             xpathFor e = "//*[@id=" +:+ dq +:+ i +:+ dq +:+ "]")
  /\ (JS.truthy (Dom.getAttribute e "id") = false ->
      xpathFor e
      = "/" +:+ String.concat "/"
                  (rev (ancestorSteps e) ++ [ownStep e])%list)
  /\ ownStep e
     = JS.toLowerCase (Dom.tagName e) +:+ "["
       +:+ JS.ofNat
             (1 + length (sameTag (Dom.tagName e) (Dom.precedingSiblings e)))
       +:+ "]".
Proof.
  split; [|split].
  - intros i Hi Hn. unfold xpathFor.
    rewrite Hi, (truthy_Some_nonempty i Hn). reflexivity.
  - intros H. unfold xpathFor, ancestorSteps, ownStep. rewrite H.
    rewrite (unshift_all
               (fun a => xpathPart (Dom.ancestorTagName a)
                           (Dom.ancestorPrecedingSiblings a))).
    reflexivity.
  - apply xpathPart_index.
Qed.

Lemma xpathFor_structure_witness :
  xpathFor Fixture.anonymousInput
  = "/" +:+ String.concat "/"
              (rev (ancestorSteps Fixture.anonymousInput)
               ++ [ownStep Fixture.anonymousInput])%list.
Proof.
  apply (proj1 (proj2 (xpathFor_structure Fixture.anonymousInput))).
  reflexivity.
Defined.

(** ** The URL given on the command line *)

(** X22: [parseUrl] returns the parsed URL exactly when the string
    parses and its protocol is http: or https:; it fails with the
    invalid-URL error exactly when the string does not parse, and with
    the protocol error, which names the protocol, for any other
    protocol. *)
Theorem parseUrl_accepts_http_only parse raw :
  (forall u,
      parseUrl parse raw = inr u
      <-> parse raw = Some u
          /\ (URL.protocol u = "http:" \/ URL.protocol u = "https:"))
  /\ (parseUrl parse raw = inl (InvalidUrl raw) <-> parse raw = None)
  /\ (forall p,
        parseUrl parse raw = inl (UnsupportedProtocol p)
        <-> exists u, parse raw = Some u /\ URL.protocol u = p
                      /\ p ≠ "http:" /\ p ≠ "https:").
Proof.
  unfold parseUrl, newURL, strEq.
  destruct (parse raw) as [u0|]; cbn [negb andb].
  - destruct (decide (URL.protocol u0 = "http:")) as [E1|E1];
      [|destruct (decide (URL.protocol u0 = "https:")) as [E2|E2]].
    + rewrite (bool_decide_eq_true_2 _ E1). cbn [negb andb].
      split; [|split].
      * intros u. split; [intros [= <-]; auto | intros [[= <-] _]; auto].
      * split; discriminate.
      * intros p. split; [discriminate|].
        intros (u & [= <-] & <- & H & _). congruence.
    + rewrite (bool_decide_eq_false_2 _ E1), (bool_decide_eq_true_2 _ E2).
      cbn [negb andb]. split; [|split].
      * intros u. split; [intros [= <-]; auto | intros [[= <-] _]; auto].
      * split; discriminate.
      * intros p. split; [discriminate|].
        intros (u & [= <-] & <- & _ & H). congruence.
    + rewrite (bool_decide_eq_false_2 _ E1), (bool_decide_eq_false_2 _ E2).
      cbn [negb andb]. split; [|split].
      * intros u. split; [discriminate|].
        intros [[= <-] [H|H]]; congruence.
      * split; discriminate.
      * intros p. split.
        -- intros [= <-]. exists u0. auto.
        -- intros (u & [= <-] & <- & _). reflexivity.
  - split; [|split].
    + intros u. split; [discriminate | intros [H _]; discriminate H].
    + tauto.
    + intros p. split; [discriminate|].
      intros (u & H & _). discriminate H.
Qed.

(** ** Report file names *)

Lemma length_app (a b : string) :
  String.length (a +:+ b) = String.length a + String.length b.
Proof.
  induction a as [|c a IH]; [reflexivity|].
  rewrite append_cons. simpl. rewrite IH. reflexivity.
Qed.

Lemma allChars_app p (a b : string) :
  allChars p (a +:+ b) = allChars p a && allChars p b.
Proof.
  induction a as [|c a IH]; [reflexivity|].
  rewrite append_cons. simpl. rewrite IH, andb_assoc. reflexivity.
Qed.

Lemma pretty_N_char_fileName x : isFileNameChar (pretty_N_char x) = true.
Proof. unfold pretty_N_char. repeat case_match; reflexivity. Qed.

Lemma pretty_N_go_fileName x s :
  allChars isFileNameChar s = true ->
  allChars isFileNameChar (pretty_N_go x s) = true.
Proof.
  revert s. induction (N.lt_wf_0 x) as [x _ IH]. intros s Hs.
  destruct (decide (x = 0)%N) as [->|Hx].
  - rewrite pretty_N_go_0. exact Hs.
  - rewrite pretty_N_go_step by lia.
    apply IH; [apply N.div_lt; lia|].
    simpl. rewrite pretty_N_char_fileName, Hs. reflexivity.
Qed.

Lemma ofNat_fileName n : allChars isFileNameChar (JS.ofNat n) = true.
Proof.
  unfold JS.ofNat, pretty, pretty_nat, pretty, pretty_N.
  case_decide; [reflexivity|].
  apply pretty_N_go_fileName. reflexivity.
Qed.

(** One digit below ten, two from ten to ninety-nine. *)
Lemma pretty_N_go_digit x s :
  (0 < x < 10)%N -> pretty_N_go x s = String (pretty_N_char x) s.
Proof.
  intros H. rewrite pretty_N_go_step by lia.
  rewrite N.div_small, N.mod_small by lia. apply pretty_N_go_0.
Qed.

Lemma ofNat_length n :
  (n < 10 -> String.length (JS.ofNat n) = 1)
  /\ (10 <= n < 100 -> String.length (JS.ofNat n) = 2)
  /\ (10 <= n -> 2 <= String.length (JS.ofNat n)).
Proof.
  unfold JS.ofNat, pretty, pretty_nat, pretty, pretty_N.
  case_decide as H0; [repeat split; intros; (reflexivity || lia)|].
  assert (G : forall x s,
             (0 < x)%N -> String.length s < String.length (pretty_N_go x s)).
  { intros x. induction (N.lt_wf_0 x) as [x _ IH]. intros s Hx.
    rewrite pretty_N_go_step by exact Hx.
    destruct (decide (x `div` 10 = 0)%N) as [E|E].
    - rewrite E, pretty_N_go_0. simpl. lia.
    - assert (Hlt : (x `div` 10 < x)%N) by (apply N.div_lt; lia).
      assert (Hpos : (0 < x `div` 10)%N) by (apply N.neq_0_lt_0, E).
      pose proof (IH _ Hlt (String (pretty_N_char (x `mod` 10)) s) Hpos)
        as HI.
      simpl in HI. lia. }
  split; [|split]; intros Hn.
  - rewrite pretty_N_go_digit by lia. reflexivity.
  - rewrite pretty_N_go_step by lia.
    rewrite pretty_N_go_digit; [reflexivity|].
    split; [apply N.div_str_pos; lia | apply N.Div0.div_lt_upper_bound; lia].
  - rewrite pretty_N_go_step by lia.
    assert (0 < N.of_nat n `div` 10)%N by (apply N.div_str_pos; lia).
    pose proof (G (N.of_nat n `div` 10)%N
                  (String (pretty_N_char (N.of_nat n `mod` 10)) "")
                  ltac:(assumption)) as HG.
    simpl in HG. lia.
Qed.

Lemma pad2_fileName n : allChars isFileNameChar (pad2 n) = true.
Proof.
  unfold pad2, padStart. destruct (_ <=? _)%nat; [apply ofNat_fileName|].
  rewrite allChars_app, ofNat_fileName, andb_true_r.
  generalize (2 - String.length (JS.ofNat n)). intros k.
  assert (G : forall rest,
             allChars isFileNameChar rest = true ->
             allChars isFileNameChar (fillChars k "0" rest) = true).
  { induction k as [|k IH]; intros rest Hr; [reflexivity|].
    simpl. destruct rest as [|c r].
    - simpl. apply IH. reflexivity.
    - simpl in Hr. apply andb_true_iff in Hr as [H1 H2].
      simpl. rewrite H1. apply IH, H2. }
  apply G. reflexivity.
Qed.

(** The decimal form of a number is made of digits. *)
Lemma pretty_N_char_digit x : isDigit (pretty_N_char x) = true.
Proof. unfold pretty_N_char. repeat case_match; reflexivity. Qed.

Lemma pretty_N_go_digits x s :
  allChars isDigit s = true -> allChars isDigit (pretty_N_go x s) = true.
Proof.
  revert s. induction (N.lt_wf_0 x) as [x _ IH]. intros s Hs.
  destruct (decide (x = 0)%N) as [->|Hx].
  - rewrite pretty_N_go_0. exact Hs.
  - rewrite pretty_N_go_step by lia.
    apply IH; [apply N.div_lt; lia|].
    simpl. rewrite pretty_N_char_digit, Hs. reflexivity.
Qed.

Lemma ofNat_digits n : allChars isDigit (JS.ofNat n) = true.
Proof.
  unfold JS.ofNat, pretty, pretty_nat, pretty, pretty_N.
  case_decide; [reflexivity|].
  apply pretty_N_go_digits. reflexivity.
Qed.

(** Padding with the digit 0 keeps a string of digits one. *)
Lemma fillChars_zero_digits k rest :
  allChars isDigit rest = true ->
  allChars isDigit (fillChars k "0" rest) = true.
Proof.
  revert rest. induction k as [|k IH]; intros rest Hr; [reflexivity|].
  simpl. destruct rest as [|c r].
  - simpl. apply IH. reflexivity.
  - simpl in Hr. apply andb_true_iff in Hr as [H1 H2].
    simpl. rewrite H1. apply IH, H2.
Qed.

Lemma pad2_digits n : allChars isDigit (pad2 n) = true.
Proof.
  unfold pad2, padStart. destruct (_ <=? _)%nat; [apply ofNat_digits|].
  rewrite allChars_app, ofNat_digits, andb_true_r.
  apply fillChars_zero_digits. reflexivity.
Qed.

(** X23: [pad2] puts one 0 before a number below ten and leaves every
    other number as it is; its result has two characters for a number
    below a hundred, never fewer than two, and digits only. *)
Theorem pad2_two_digits n :
  (n < 10 -> pad2 n = "0" +:+ JS.ofNat n)
  /\ (10 <= n -> pad2 n = JS.ofNat n)
  /\ (n < 100 -> String.length (pad2 n) = 2)
  /\ 2 <= String.length (pad2 n)
  /\ allChars isDigit (pad2 n) = true.
Proof.
  destruct (ofNat_length n) as (L1 & L2 & L3).
  assert (A : n < 10 -> pad2 n = "0" +:+ JS.ofNat n).
  { intros H. unfold pad2, padStart. rewrite (L1 H). reflexivity. }
  assert (B : 10 <= n -> pad2 n = JS.ofNat n).
  { intros H. unfold pad2, padStart. specialize (L3 H).
    destruct (Nat.leb_spec 2 (String.length (JS.ofNat n))); [reflexivity|lia]. }
  split; [exact A|]. split; [exact B|].
  split; [|split; [|apply pad2_digits]].
  - intros H100. destruct (Nat.lt_ge_cases n 10) as [H|H].
    + rewrite (A H), length_app, (L1 H). reflexivity.
    + rewrite (B H). apply L2. lia.
  - destruct (Nat.lt_ge_cases n 10) as [H|H].
    + rewrite (A H), length_app, (L1 H). simpl. lia.
    + rewrite (B H). exact (L3 H).
Qed.

Lemma pad2_two_digits_witness : pad2 7 = "0" +:+ JS.ofNat 7.
Proof. apply (proj1 (pad2_two_digits 7)). lia. Defined.

Lemma dropTldSuffix_cons c s :
  dropTldSuffix (String c s)
  = if strEq (String c s) "-com" || strEq (String c s) "-net"
       || strEq (String c s) "-org"
    then "" else String c (dropTldSuffix s).
Proof. reflexivity. Qed.

Lemma strEq_longer s lit :
  String.length lit < String.length s -> strEq s lit = false.
Proof. intros H. apply strEq_ne. intros ->. lia. Qed.

Lemma dropTldSuffix_app d suf :
  suf ∈ ["-com"; "-net"; "-org"] -> dropTldSuffix (d +:+ suf) = d.
Proof.
  intros Hs.
  assert (Hl : String.length suf = 4).
  { rewrite !elem_of_cons, elem_of_nil in Hs.
    destruct Hs as [->|[->|[->|[]]]]; reflexivity. }
  induction d as [|c d IH].
  - rewrite append_nil. rewrite !elem_of_cons, elem_of_nil in Hs.
    destruct Hs as [->|[->|[->|[]]]]; reflexivity.
  - rewrite append_cons, dropTldSuffix_cons, IH.
    rewrite !strEq_longer; [reflexivity|..];
      simpl; rewrite length_app, Hl; lia.
Qed.

Lemma dropTldSuffix_cases s :
  dropTldSuffix s = s
  \/ exists suf, suf ∈ ["-com"; "-net"; "-org"]
                 /\ s = dropTldSuffix s +:+ suf.
Proof.
  induction s as [|c s IH]; [left; reflexivity|].
  rewrite dropTldSuffix_cons. unfold strEq.
  repeat case_bool_decide; cbn [orb];
    try (right; eexists; split; [|rewrite append_nil; eassumption];
         rewrite !elem_of_cons; tauto).
  destruct IH as [->|(suf & Hs & E)]; [left; reflexivity|].
  right. exists suf. split; [exact Hs|].
  rewrite append_cons, <- E. reflexivity.
Qed.

Lemma dropTldSuffix_allChars p s :
  allChars p s = true -> allChars p (dropTldSuffix s) = true.
Proof.
  induction s as [|c s IH]; [reflexivity|].
  rewrite dropTldSuffix_cons. destruct (_ || _); [reflexivity|].
  simpl. intros H. apply andb_true_iff in H as [H1 H2].
  rewrite H1, (IH H2). reflexivity.
Qed.

(** X24: the short domain is the slug without one final -com, -net or
    -org: exactly that suffix is removed when the slug ends with one,
    even if what is left ends with one again, and nothing is changed
    otherwise. *)
Theorem dropTldSuffix_strips_one :
  (forall d suf,
      suf ∈ ["-com"; "-net"; "-org"] -> dropTldSuffix (d +:+ suf) = d)
  /\ (forall s,
        dropTldSuffix s = s
        \/ exists suf, suf ∈ ["-com"; "-net"; "-org"]
                       /\ s = dropTldSuffix s +:+ suf).
Proof. split; [exact dropTldSuffix_app | exact dropTldSuffix_cases]. Qed.

Lemma dropTldSuffix_strips_one_witness :
  dropTldSuffix ("example-com" +:+ "-net") = "example-com".
Proof.
  apply (proj1 dropTldSuffix_strips_one "example-com" "-net").
  vm_compute. repeat constructor.
Defined.

Lemma slugChars_fileName s :
  allChars isSlugChar s = true -> allChars isFileNameChar s = true.
Proof.
  induction s as [|c s IH]; [reflexivity|].
  simpl. intros H. apply andb_true_iff in H as [H1 H2].
  unfold isFileNameChar at 1. rewrite H1, (IH H2). reflexivity.
Qed.

Lemma safeSlug_slugChars input : allChars isSlugChar (safeSlug input) = true.
Proof.
  apply (trimmed_slug_shape (JS.stripPrefix "www." (JS.toLowerCase input))).
Qed.

(** The name built from a hostname. *)
Lemma buildReportFileName_parsed parse url now u :
  parse url = Some u ->
  buildReportFileName parse url now
  = Normal
      ("recon-report-"
       +:+ (pad2 (LocalTime.month now + 1) +:+ "-"
            +:+ pad2 (LocalTime.date now) +:+ "-"
            +:+ JS.ofNat (LocalTime.fullYear now) +:+ "-"
            +:+ dropTldSuffix (safeSlug (URL.hostname u)) +:+ "-"
            +:+ pad2 (LocalTime.hours now)
            +:+ pad2 (LocalTime.minutes now)
            +:+ pad2 (LocalTime.seconds now))
       +:+ ".json").
Proof.
  intros H. unfold buildReportFileName, newURL. rewrite H.
  cbn [bind]. rewrite !append_assoc. reflexivity.
Qed.

(** X25: [buildReportFileName] throws exactly when the URL of the
    report is malformed; otherwise the name is recon-report-, a stem and
    .json, and is made of the characters a-z, 0-9, hyphen and dot only;
    it depends on the URL through the short domain of the hostname
    alone, so two reports whose hostnames have the same short domain get
    the same name at the same time, whatever their paths. *)
Theorem buildReportFileName_result parse url now :
  ((exists e, buildReportFileName parse url now = Throw e)
   <-> parse url = None)
  /\ (forall u,
        parse url = Some u ->
        exists stem,
          buildReportFileName parse url now
          = Normal ("recon-report-" +:+ stem +:+ ".json")
          /\ allChars isFileNameChar
               ("recon-report-" +:+ stem +:+ ".json") = true)
  /\ (forall url' u u',
        parse url = Some u -> parse url' = Some u' ->
        dropTldSuffix (safeSlug (URL.hostname u))
        = dropTldSuffix (safeSlug (URL.hostname u')) ->
        buildReportFileName parse url now
        = buildReportFileName parse url' now).
Proof.
  split; [|split].
  - unfold buildReportFileName, newURL.
    destruct (parse url); cbn [bind]; split;
      try discriminate; try (intros [? H]; discriminate H); eauto.
  - intros u Hu. eexists.
    split; [apply (buildReportFileName_parsed _ _ _ _ Hu)|].
    rewrite !allChars_app, !pad2_fileName, ofNat_fileName.
    rewrite (dropTldSuffix_allChars _ _
               (slugChars_fileName _ (safeSlug_slugChars _))).
    reflexivity.
  - intros url' u u' Hu Hu' E.
    rewrite (buildReportFileName_parsed _ _ _ _ Hu),
      (buildReportFileName_parsed _ _ _ _ Hu'), E.
    reflexivity.
Qed.

Lemma buildReportFileName_result_witness :
  buildReportFileName Sample.parseUrl "https://www.example.com/login"
    Fixture.evening
  = buildReportFileName Sample.parseUrl "https://example.org/" Fixture.evening.
Proof.
  apply (proj2 (proj2 (buildReportFileName_result Sample.parseUrl
                         "https://www.example.com/login" Fixture.evening))
           "https://example.org/"
           (URL.mk "https:" "www.example.com")
           (URL.mk "https:" "example.org"));
    vm_compute; reflexivity.
Defined.

(** ** From the counts of a report to the kinds of its model *)

Lemma occurrences_in_model (f : nat -> ReconElement.t -> ElementModel.t)
    t elements :
  (forall i el, ElementModel.kind (f i el) = kindOf (ReconElement.type el)) ->
  length
    (List.filter (fun m => bool_decide (ElementModel.kind m = kindOf t))
       (imap f elements))
  = occurrences t elements.
Proof.
  revert f. induction elements as [|el els IH]; intros f Hf; [reflexivity|].
  unfold occurrences in *. cbn [imap List.filter].
  rewrite Hf.
  assert (E : bool_decide (kindOf (ReconElement.type el) = kindOf t)
              = bool_decide (ReconElement.type el = t)).
  { apply bool_decide_ext. split; [apply kindOf_inj | congruence]. }
  rewrite E. specialize (IH (f ∘ S) (fun i => Hf (S i))).
  destruct (bool_decide (ReconElement.type el = t));
    cbn [length]; [f_equal|]; exact IH.
Qed.

(** X26: for the model built from the report of a scan, the counts of
    the report are the numbers of model elements of the corresponding
    kind (input counts the textboxes), and they sum to the number of
    model elements. *)
Theorem scan_counts_match_model Number url now document parse title model :
  let report := scanUrl Number url now document in
  buildPageModel parse report title = Normal model ->
  sumOfCounts (ReconReport.counts report)
  = length (PageModel.elements model)
  /\ forall t,
       ReconReport.counts report !! typeName t
       = Some
           (length
              (List.filter
                 (fun m => bool_decide (ElementModel.kind m = kindOf t))
                 (PageModel.elements model))).
Proof.
  intros report Hm.
  destruct (parse (ReconReport.url report)) as [u|] eqn:E;
    [|rewrite (buildPageModel_malformed _ _ _ E) in Hm; discriminate Hm].
  rewrite (buildPageModel_parsed _ _ _ _ E) in Hm. injection Hm as <-.
  cbn [PageModel.elements]. unfold mapIndexed.
  subst report. unfold scanUrl. cbn [ReconReport.counts ReconReport.elements].
  split.
  - rewrite countsOf_sum, length_imap. reflexivity.
  - intros t. rewrite countsOf_lookup, occurrences_in_model; [reflexivity|].
    intros i el. reflexivity.
Qed.

Lemma scan_counts_match_model_witness :
  exists model,
    buildPageModel Sample.parseUrl
      (scanUrl Sample.toNumber "https://www.example.com/"
         "2026-01-18T00:00:00.000Z" Sample.page) None = Normal model
    /\ sumOfCounts
         (ReconReport.counts
            (scanUrl Sample.toNumber "https://www.example.com/"
               "2026-01-18T00:00:00.000Z" Sample.page))
       = length (PageModel.elements model).
Proof.
  eexists. split; [vm_compute; reflexivity|].
  refine (proj1 (scan_counts_match_model Sample.toNumber
                   "https://www.example.com/" "2026-01-18T00:00:00.000Z"
                   Sample.page Sample.parseUrl None _ _)).
  vm_compute. reflexivity.
Defined.
